(** * resilience (v1/resilience.go): a fault-injecting [http.Handler]

    The Go package wraps a downstream [http.Handler].  For every request a
    caller-supplied policy [ShouldFail] is consulted before dispatch
    ([afterHeader = false]) and, through the [responseWriter] decorator,
    at the moment the downstream handler first commits a status
    ([afterHeader = true]).

    The embedding is shallow.  Go's [int] is [Z] (only comparisons with
    constants occur, so no wrap-around is involved), [[]byte] is
    [list byte], [error] is [option string], and a Go [panic] is the
    [Panics] outcome of a small state-and-trace monad.  The real response
    sink, the policy and the downstream handler are collaborators that live
    outside the package: the sink and the policy are arbitrary functions over
    abstract states, the downstream handler is an arbitrary finite tree of
    calls on the writer it is given.  Every call that crosses the package
    boundary is recorded as an [Event], in program order. *)

From Stdlib Require Import ZArith List String Bool Lia DecimalString.
From Stdlib Require DecimalZ DecimalPos.
Import ListNotations.
Abbreviation byte := Init.Byte.byte.
Local Open Scope Z_scope.

(** ** Outcomes, events and the monad *)

(** Go's [error] interface value: [nil] or an error with its message. *)
Definition error : Type := option string.

(** A Go call either returns or panics with a value (a message here). *)
Inductive Result (A : Type) : Type :=
| Returns (a : A)
| Panics (v : string).
Arguments Returns {A} a.
Arguments Panics {A} v.

(** Calls that cross the boundary of the package. *)
Inductive Event : Type :=
| ShouldFailCall (afterHeader : bool) (ret : Z)
    (* h.ShouldFail(r, afterHeader) returned ret *)
| HandlerServeHTTP
    (* h.Handler.ServeHTTP(&responseWriter{...}, r) is entered *)
| GuardWriteHeader (status : Z)
    (* the downstream handler calls WriteHeader(status) on the decorator *)
| GuardWrite (data : list byte)
    (* the downstream handler calls Write(data) on the decorator *)
| SinkWriteHeader (status : Z)
    (* WriteHeader(status) is called on the real http.ResponseWriter *)
| SinkWrite (data : list byte).
    (* Write(data) is called on the real http.ResponseWriter *)

(** State passing with panics and an output trace.  The state survives a
    panic, so that what a panicking call left behind can be observed. *)
Definition M (S A : Type) : Type := S -> Result A * S * list Event.

Definition ret {S A : Type} (a : A) : M S A :=
  fun s => (Returns a, s, []).

Definition bind {S A B : Type} (m : M S A) (f : A -> M S B) : M S B :=
  fun s =>
    match m s with
    | (Returns a, s1, e1) =>
        match f a s1 with
        | (r, s2, e2) => (r, s2, e1 ++ e2)
        end
    | (Panics v, s1, e1) => (Panics v, s1, e1)
    end.

Definition panic {S A : Type} (v : string) : M S A :=
  fun s => (Panics v, s, []).

Definition emit {S : Type} (e : Event) : M S unit :=
  fun s => (Returns tt, s, [e]).

(** The three components of a run. *)
Definition outcome {S A : Type} (x : Result A * S * list Event) : Result A :=
  fst (fst x).
Definition final {S A : Type} (x : Result A * S * list Event) : S :=
  snd (fst x).
Definition trace {S A : Type} (x : Result A * S * list Event) : list Event :=
  snd x.

Declare Scope go_scope.
Delimit Scope go_scope with go.
Notation "x <- m ;; k" := (bind m (fun x => k))
  (at level 61, m at next level, right associativity) : go_scope.
Notation "m ;; k" := (bind m (fun _ => k))
  (at level 61, right associativity) : go_scope.
Local Open Scope go_scope.

(** [fmt.Sprintf("unexpected status code %d", s)] *)
Definition unexpected (s : Z) : string :=
  ("unexpected status code " ++ NilZero.string_of_int (Z.to_int s))%string.

(** [http.StatusOK] *)
Definition StatusOK : Z := 200.

(** ** The collaborators *)

(** The downstream handler, seen from the package: a finite tree of calls on
    the [http.ResponseWriter] it receives.  [Write] hands back the size and
    the error, on which the rest of the handler may depend; the handler may
    panic on its own, and a panic raised inside a call on the writer ends it
    (it does not recover; [Routine] below is the handler that may, and
    [plain] embeds this one there).  ([Header] is promoted from the embedded
    writer untouched and is left out.) *)
Inductive Prog : Type :=
| Return_
| Panic_ (v : string)
| CallWriteHeader (status : Z) (k : Prog)
| CallWrite (data : list byte) (k : Z -> error -> Prog).

(** A straight-line handler: the calls of a list, whatever [Write] returns. *)
Inductive Call : Type :=
| DoWriteHeader (status : Z)
| DoWrite (data : list byte).

Fixpoint straight (cs : list Call) : Prog :=
  match cs with
  | [] => Return_
  | DoWriteHeader c :: cs' => CallWriteHeader c (straight cs')
  | DoWrite d :: cs' => CallWrite d (fun _ _ => straight cs')
  end.

Section Resilience.
Context {Request PolicyState SinkState : Type}.

(** [type ShouldFail func(r *http.Request, afterHeader bool) int].  A Go
    closure may carry state (the package is meant for random failures), so
    the policy threads a state of its own. *)
Definition ShouldFail : Type :=
  Request -> bool -> PolicyState -> Z * PolicyState.

(** The methods of the real [http.ResponseWriter] used by the package.
    They act on the sink's own state and may panic. *)
Record http_ResponseWriter : Type := {
  rwWriteHeader : Z -> SinkState -> Result unit * SinkState;
  rwWrite : list byte -> SinkState -> Result (Z * error) * SinkState
}.

(** [http.Handler]: what the downstream handler does with a request. *)
Definition http_Handler : Type := Request -> Prog.

(** [type Handler struct { Handler http.Handler; ShouldFail ShouldFail }] *)
Record Handler : Type := {
  Handler_Handler : http_Handler;
  Handler_ShouldFail : ShouldFail
}.

(** [type responseWriter struct] *)
Record responseWriter : Type := {
  ResponseWriter : http_ResponseWriter;
  req : Request;
  shouldFail : ShouldFail;
  status : Z
}.

(** What exists outside the decorator during one request. *)
Record World : Type := {
  policy : PolicyState;
  sink : SinkState
}.

(** *** Calls that leave the package *)

Definition callShouldFail (f : ShouldFail) (r : Request) (afterHeader : bool)
  : M World Z :=
  fun w =>
    let (s, p) := f r afterHeader (policy w) in
    (Returns s, {| policy := p; sink := sink w |},
     [ShouldFailCall afterHeader s]).

Definition sinkWriteHeader (rw : http_ResponseWriter) (code : Z)
  : M World unit :=
  fun w =>
    let (res, k) := rwWriteHeader rw code (sink w) in
    (res, {| policy := policy w; sink := k |}, [SinkWriteHeader code]).

Definition sinkWrite (rw : http_ResponseWriter) (data : list byte)
  : M World (Z * error) :=
  fun w =>
    let (res, k) := rwWrite rw data (sink w) in
    (res, {| policy := policy w; sink := k |}, [SinkWrite data]).

(** *** The decorator: state is the [responseWriter] and the world *)

Definition onWorld {A : Type} (m : M World A) : M (responseWriter * World) A :=
  fun s =>
    match m (snd s) with
    | (res, w, e) => (res, (fst s, w), e)
    end.

Definition self : M (responseWriter * World) responseWriter :=
  fun s => (Returns (fst s), s, []).

Definition withStatus (r : responseWriter) (code : Z) : responseWriter :=
  {| ResponseWriter := ResponseWriter r; req := req r;
     shouldFail := shouldFail r; status := code |}.

(** [r.status = code] *)
Definition setStatus (code : Z) : M (responseWriter * World) unit :=
  fun s => (Returns tt, (withStatus (fst s) code, snd s), []).

(** [func (r *responseWriter) WriteHeader(status int)] *)
Definition WriteHeader (code : Z) : M (responseWriter * World) unit :=
  r <- self ;;
  if negb (status r =? 0) then
    ret tt
  else
    s <- onWorld (callShouldFail (shouldFail r) (req r) true) ;;
    code' <- (if negb (s =? 0) then
                if (s <? 400) || (s >=? 600) then panic (unexpected s)
                else ret s
              else ret code) ;;
    onWorld (sinkWriteHeader (ResponseWriter r) code') ;;
    setStatus code'.

(** [func (r *responseWriter) Write(data []byte) (size int, err error)] *)
Definition Write (data : list byte) : M (responseWriter * World) (Z * error) :=
  r <- self ;;
  (if status r =? 0 then WriteHeader StatusOK else ret tt) ;;
  onWorld (sinkWrite (ResponseWriter r) data).

(** The downstream handler running against the decorator. *)
Fixpoint serve (p : Prog) : M (responseWriter * World) unit :=
  match p with
  | Return_ => ret tt
  | Panic_ v => panic v
  | CallWriteHeader c k =>
      emit (GuardWriteHeader c) ;; WriteHeader c ;; serve k
  | CallWrite d k =>
      emit (GuardWrite d) ;; res <- Write d ;; serve (k (fst res) (snd res))
  end.

(** The decorator lives for one call of the downstream handler. *)
Definition withGuard {A : Type} (g : responseWriter)
    (m : M (responseWriter * World) A) : M World A :=
  fun w =>
    match m (g, w) with
    | (res, s, e) => (res, snd s, e)
    end.

(** [func (h *Handler) ServeHTTP(w http.ResponseWriter, r *http.Request)] *)
Definition ServeHTTP (h : Handler) (w : http_ResponseWriter) (r : Request)
  : M World unit :=
  s <- callShouldFail (Handler_ShouldFail h) r false ;;
  if negb (s =? 0) then
    if (s <? 400) || (s >=? 600) then panic (unexpected s)
    else sinkWriteHeader w s
  else
    emit HandlerServeHTTP ;;
    withGuard {| ResponseWriter := w; req := r;
                 shouldFail := Handler_ShouldFail h; status := 0 |}
              (serve (Handler_Handler h r)).

(** *** What one call on the decorator does

    The cases of [WriteHeader] and [Write], spelled out on the result,
    the state and the events of the call. *)

(** The policy's answer is 0 or a status in 400..599. *)
Definition valid (s : Z) : Prop := s = 0 \/ 400 <= s < 600.

(** The status that is committed: the policy's when it is not 0. *)
Definition resolve (s code : Z) : Z := if s =? 0 then code else s.

Inductive WriteHeaderStep (code : Z) (g : responseWriter) (w : World)
  : Result unit * (responseWriter * World) * list Event -> Prop :=
| wh_committed :
    status g <> 0 ->
    WriteHeaderStep code g w (Returns tt, (g, w), [])
| wh_invalid s p :
    status g = 0 ->
    shouldFail g (req g) true (policy w) = (s, p) ->
    ~ valid s ->
    WriteHeaderStep code g w
      (Panics (unexpected s), (g, {| policy := p; sink := sink w |}),
       [ShouldFailCall true s])
| wh_sink_panics s p v k :
    status g = 0 ->
    shouldFail g (req g) true (policy w) = (s, p) ->
    valid s ->
    rwWriteHeader (ResponseWriter g) (resolve s code) (sink w) = (Panics v, k) ->
    WriteHeaderStep code g w
      (Panics v, (g, {| policy := p; sink := k |}),
       [ShouldFailCall true s; SinkWriteHeader (resolve s code)])
| wh_commits s p u k :
    status g = 0 ->
    shouldFail g (req g) true (policy w) = (s, p) ->
    valid s ->
    rwWriteHeader (ResponseWriter g) (resolve s code) (sink w) = (Returns u, k) ->
    WriteHeaderStep code g w
      (Returns tt, (withStatus g (resolve s code), {| policy := p; sink := k |}),
       [ShouldFailCall true s; SinkWriteHeader (resolve s code)]).

Inductive WriteStep (data : list byte) (g : responseWriter) (w : World)
  : Result (Z * error) * (responseWriter * World) * list Event -> Prop :=
| w_committed res k :
    status g <> 0 ->
    rwWrite (ResponseWriter g) data (sink w) = (res, k) ->
    WriteStep data g w
      (res, (g, {| policy := policy w; sink := k |}), [SinkWrite data])
| w_commit_panics v s' t :
    status g = 0 ->
    WriteHeader StatusOK (g, w) = (Panics v, s', t) ->
    WriteStep data g w (Panics v, s', t)
| w_commits u g' w' t res k :
    status g = 0 ->
    WriteHeader StatusOK (g, w) = (Returns u, (g', w'), t) ->
    rwWrite (ResponseWriter g) data (sink w') = (res, k) ->
    WriteStep data g w
      (res, (g', {| policy := policy w'; sink := k |}), t ++ [SinkWrite data]).

(** The three ways of [ServeHTTP]: the policy's first answer is refused,
    is written as the response, or lets the request through. *)
Inductive ServeHTTPStep (h : Handler) (w : http_ResponseWriter)
    (r : Request) (w0 : World)
  : Result unit * World * list Event -> Prop :=
| serve_invalid s p :
    Handler_ShouldFail h r false (policy w0) = (s, p) ->
    ~ valid s ->
    ServeHTTPStep h w r w0
      (Panics (unexpected s), {| policy := p; sink := sink w0 |},
       [ShouldFailCall false s])
| serve_forced s p res k :
    Handler_ShouldFail h r false (policy w0) = (s, p) ->
    valid s -> s <> 0 ->
    rwWriteHeader w s (sink w0) = (res, k) ->
    ServeHTTPStep h w r w0
      (res, {| policy := p; sink := k |},
       [ShouldFailCall false s; SinkWriteHeader s])
| serve_dispatch p res g' w' t :
    Handler_ShouldFail h r false (policy w0) = (0, p) ->
    serve (Handler_Handler h r)
          ({| ResponseWriter := w; req := r;
              shouldFail := Handler_ShouldFail h; status := 0 |},
           {| policy := p; sink := sink w0 |}) = (res, (g', w'), t) ->
    ServeHTTPStep h w r w0
      (res, w', ShouldFailCall false 0 :: HandlerServeHTTP :: t).

End Resilience.

Arguments ShouldFail : clear implicits.
Arguments http_ResponseWriter : clear implicits.
Arguments http_Handler : clear implicits.
Arguments Handler : clear implicits.
Arguments responseWriter : clear implicits.
Arguments World : clear implicits.

(** ** Reading a trace *)

(** The values the policy returned in the calls made with the given flag. *)
Definition decisions (afterHeader : bool) (t : list Event) : list Z :=
  flat_map (fun e => match e with
                     | ShouldFailCall b s =>
                         if Bool.eqb b afterHeader then [s] else []
                     | _ => []
                     end) t.

(** The status codes committed on the real sink. *)
Definition sinkStatuses (t : list Event) : list Z :=
  flat_map (fun e => match e with SinkWriteHeader c => [c] | _ => [] end) t.

(** The byte slices written on the real sink. *)
Definition sinkWrites (t : list Event) : list (list byte) :=
  flat_map (fun e => match e with SinkWrite d => [d] | _ => [] end) t.

(** The status codes the downstream handler passed to the decorator. *)
Definition guardStatuses (t : list Event) : list Z :=
  flat_map (fun e => match e with GuardWriteHeader c => [c] | _ => [] end) t.

(** The byte slices the downstream handler passed to the decorator. *)
Definition guardWrites (t : list Event) : list (list byte) :=
  flat_map (fun e => match e with GuardWrite d => [d] | _ => [] end) t.

(** How often the downstream handler was entered. *)
Definition invocations (t : list Event) : nat :=
  List.length (flat_map (fun e => match e with HandlerServeHTTP => [tt] | _ => [] end) t).

(** The status that the downstream handler's first call on the decorator
    asks for: its own code for [WriteHeader], [StatusOK] for [Write]. *)
Fixpoint firstCall (t : list Event) : option Z :=
  match t with
  | [] => None
  | GuardWriteHeader c :: _ => Some c
  | GuardWrite _ :: _ => Some StatusOK
  | _ :: t' => firstCall t'
  end.

(** The status of a request without faults in the words of the
    specification: the first status the downstream handler set, or the
    default success code if it never explicitly set one. *)
Definition statedStatus (t : list Event) : Z := hd StatusOK (guardStatuses t).

(** ** The protocol of one dispatch

    [Served st t r]: starting with the decorator's [status] field equal to
    [st], the downstream handler's run may leave the trace [t] and end with
    [r].  One rule per way a call of the handler can go. *)
Inductive Served : Z -> list Event -> Result unit -> Prop :=
| sv_return st :
    Served st [] (Returns tt)
| sv_fault st v :
    Served st [] (Panics v)
| sv_wh_skip st c t r :
    st <> 0 -> Served st t r ->
    Served st (GuardWriteHeader c :: t) r
| sv_wh_invalid c s :
    ~ valid s ->
    Served 0 [GuardWriteHeader c; ShouldFailCall true s] (Panics (unexpected s))
| sv_wh_sink_panics c s v :
    valid s ->
    Served 0 [GuardWriteHeader c; ShouldFailCall true s;
              SinkWriteHeader (resolve s c)] (Panics v)
| sv_wh_commit c s t r :
    valid s -> Served (resolve s c) t r ->
    Served 0 (GuardWriteHeader c :: ShouldFailCall true s ::
              SinkWriteHeader (resolve s c) :: t) r
| sv_w_panics st d v :
    st <> 0 ->
    Served st [GuardWrite d; SinkWrite d] (Panics v)
| sv_w st d t r :
    st <> 0 -> Served st t r ->
    Served st (GuardWrite d :: SinkWrite d :: t) r
| sv_w_invalid d s :
    ~ valid s ->
    Served 0 [GuardWrite d; ShouldFailCall true s] (Panics (unexpected s))
| sv_w_header_panics d s v :
    valid s ->
    Served 0 [GuardWrite d; ShouldFailCall true s;
              SinkWriteHeader (resolve s StatusOK)] (Panics v)
| sv_w_commit_panics d s v :
    valid s ->
    Served 0 [GuardWrite d; ShouldFailCall true s;
              SinkWriteHeader (resolve s StatusOK); SinkWrite d] (Panics v)
| sv_w_commit d s t r :
    valid s -> Served (resolve s StatusOK) t r ->
    Served 0 (GuardWrite d :: ShouldFailCall true s ::
              SinkWriteHeader (resolve s StatusOK) :: SinkWrite d :: t) r.

(** [Handled t r]: the trace and the result of one request. *)
Inductive Handled : list Event -> Result unit -> Prop :=
| hd_invalid s :
    ~ valid s ->
    Handled [ShouldFailCall false s] (Panics (unexpected s))
| hd_forced s r :
    valid s -> s <> 0 ->
    Handled [ShouldFailCall false s; SinkWriteHeader s] r
| hd_dispatch t r :
    Served 0 t r ->
    Handled (ShouldFailCall false 0 :: HandlerServeHTTP :: t) r.

(** ** Handlers that recover

    A Go handler may recover the panic of a call on the writer (a deferred
    [recover()]) and go on calling it.  [Routine] is the downstream handler in
    that generality: the rest of the handler receives the outcome of each
    call, a return value or the value of the panic, and decides what to do.
    [Prog] above is the special case that lets every panic through. *)
Inductive Routine : Type :=
| Finish
| Fault (v : string)
| TryWriteHeader (status : Z) (k : Result unit -> Routine)
| TryWrite (data : list byte) (k : Result (Z * error) -> Routine).

(** A handler that does not recover, as a [Routine]. *)
Fixpoint plain (p : Prog) : Routine :=
  match p with
  | Return_ => Finish
  | Panic_ v => Fault v
  | CallWriteHeader c k =>
      TryWriteHeader c (fun r => match r with
                                 | Returns _ => plain k
                                 | Panics v => Fault v
                                 end)
  | CallWrite d k =>
      TryWrite d (fun r => match r with
                           | Returns a => plain (k (fst a) (snd a))
                           | Panics v => Fault v
                           end)
  end.

(** A call whose panic is recovered: its outcome becomes a value. *)
Definition attempt {S A : Type} (m : M S A) : M S (Result A) :=
  fun s =>
    match m s with
    | (r, s1, e) => (Returns r, s1, e)
    end.

Module Recover.
Section Model.
Context {Request PolicyState SinkState : Type}.

(** [http.Handler] *)
Definition http_Handler : Type := Request -> Routine.

(** [type Handler struct { Handler http.Handler; ShouldFail ShouldFail }] *)
Record Handler : Type := {
  Handler_Handler : http_Handler;
  Handler_ShouldFail : ShouldFail Request PolicyState
}.

(** The downstream handler running against the decorator. *)
Fixpoint serve (p : Routine)
  : M (responseWriter Request PolicyState SinkState *
       World PolicyState SinkState) unit :=
  match p with
  | Finish => ret tt
  | Fault v => panic v
  | TryWriteHeader c k =>
      emit (GuardWriteHeader c) ;; r <- attempt (WriteHeader c) ;; serve (k r)
  | TryWrite d k =>
      emit (GuardWrite d) ;; r <- attempt (Write d) ;; serve (k r)
  end.

(** [func (h *Handler) ServeHTTP(w http.ResponseWriter, r *http.Request)] *)
Definition ServeHTTP (h : Handler) (w : http_ResponseWriter SinkState)
    (r : Request) : M (World PolicyState SinkState) unit :=
  s <- callShouldFail (Handler_ShouldFail h) r false ;;
  if negb (s =? 0) then
    if (s <? 400) || (s >=? 600) then panic (unexpected s)
    else sinkWriteHeader w s
  else
    emit HandlerServeHTTP ;;
    withGuard {| ResponseWriter := w; req := r;
                 shouldFail := Handler_ShouldFail h; status := 0 |}
              (serve (Handler_Handler h r)).

End Model.
Arguments http_Handler : clear implicits.
Arguments Handler : clear implicits.
End Recover.

(** ** The sink behind a trace *)

Section Sink.
Context {SinkState : Type}.
Variable rw : http_ResponseWriter SinkState.

(** The state the sink's own methods reach on the calls of a trace. *)
Fixpoint replay (t : list Event) (k : SinkState) : SinkState :=
  match t with
  | [] => k
  | SinkWriteHeader c :: t' => replay t' (snd (rwWriteHeader rw c k))
  | SinkWrite d :: t' => replay t' (snd (rwWrite rw d k))
  | _ :: t' => replay t' k
  end.

(** No [WriteHeader] of the trace made the sink panic. *)
Fixpoint accepted (t : list Event) (k : SinkState) : bool :=
  match t with
  | [] => true
  | SinkWriteHeader c :: t' =>
      match rwWriteHeader rw c k with
      | (Returns _, k') => accepted t' k'
      | (Panics _, _) => false
      end
  | SinkWrite d :: t' => accepted t' (snd (rwWrite rw d k))
  | _ :: t' => accepted t' k
  end.

(** The committed status: the first one whose [WriteHeader] on the sink
    returned. *)
Fixpoint taken (t : list Event) (k : SinkState) : option Z :=
  match t with
  | [] => None
  | SinkWriteHeader c :: t' =>
      match rwWriteHeader rw c k with
      | (Returns _, _) => Some c
      | (Panics _, k') => taken t' k'
      end
  | SinkWrite d :: t' => taken t' (snd (rwWrite rw d k))
  | _ :: t' => taken t' k
  end.



(** [Performed st k t k']: what a downstream handler, recovering or not, can
    make of a decorator whose [status] is [st] over a sink in state [k].
    One rule per way a call can go; after a call that panicked the handler
    may go on, the decorator still uncommitted. *)
Inductive Performed : Z -> SinkState -> list Event -> SinkState -> Prop :=
| pf_end st k :
    Performed st k [] k
| pf_wh_skip st k c t k' :
    st <> 0 -> Performed st k t k' ->
    Performed st k (GuardWriteHeader c :: t) k'
| pf_wh_invalid k c s t k' :
    ~ valid s -> Performed 0 k t k' ->
    Performed 0 k (GuardWriteHeader c :: ShouldFailCall true s :: t) k'
| pf_wh_refused k c s v k1 t k' :
    valid s -> rwWriteHeader rw (resolve s c) k = (Panics v, k1) ->
    Performed 0 k1 t k' ->
    Performed 0 k (GuardWriteHeader c :: ShouldFailCall true s ::
                   SinkWriteHeader (resolve s c) :: t) k'
| pf_wh_commit k c s u k1 t k' :
    valid s -> rwWriteHeader rw (resolve s c) k = (Returns u, k1) ->
    Performed (resolve s c) k1 t k' ->
    Performed 0 k (GuardWriteHeader c :: ShouldFailCall true s ::
                   SinkWriteHeader (resolve s c) :: t) k'
| pf_w st k d res k1 t k' :
    st <> 0 -> rwWrite rw d k = (res, k1) -> Performed st k1 t k' ->
    Performed st k (GuardWrite d :: SinkWrite d :: t) k'
| pf_w_invalid k d s t k' :
    ~ valid s -> Performed 0 k t k' ->
    Performed 0 k (GuardWrite d :: ShouldFailCall true s :: t) k'
| pf_w_refused k d s v k1 t k' :
    valid s -> rwWriteHeader rw (resolve s StatusOK) k = (Panics v, k1) ->
    Performed 0 k1 t k' ->
    Performed 0 k (GuardWrite d :: ShouldFailCall true s ::
                   SinkWriteHeader (resolve s StatusOK) :: t) k'
| pf_w_commit k d s u k1 res k2 t k' :
    valid s -> rwWriteHeader rw (resolve s StatusOK) k = (Returns u, k1) ->
    rwWrite rw d k1 = (res, k2) ->
    Performed (resolve s StatusOK) k2 t k' ->
    Performed 0 k (GuardWrite d :: ShouldFailCall true s ::
                   SinkWriteHeader (resolve s StatusOK) :: SinkWrite d :: t) k'.

(** [Answered k t k']: the trace of one request and the sink before and
    after it. *)
Inductive Answered : SinkState -> list Event -> SinkState -> Prop :=
| an_invalid k s :
    ~ valid s ->
    Answered k [ShouldFailCall false s] k
| an_forced k s :
    valid s -> s <> 0 ->
    Answered k [ShouldFailCall false s; SinkWriteHeader s]
             (snd (rwWriteHeader rw s k))
| an_dispatch k t k' :
    Performed 0 k t k' ->
    Answered k (ShouldFailCall false 0 :: HandlerServeHTTP :: t) k'.

End Sink.

(** A status reaches the sink with no decision at the commit right before
    it: [ServeHTTP] wrote it itself (line 38), it did not come through the
    decorator, which asks the policy first (lines 63 to 69). *)
Fixpoint forcedDirectly (t : list Event) : bool :=
  match t with
  | [] => false
  | ShouldFailCall true _ :: SinkWriteHeader _ :: t' => forcedDirectly t'
  | SinkWriteHeader _ :: _ => true
  | _ :: t' => forcedDirectly t'
  end.

(** [Subseq l l']: [l] is [l'] with some elements left out. *)
Inductive Subseq {A : Type} : list A -> list A -> Prop :=
| sub_nil : Subseq [] []
| sub_skip x l l' : Subseq l l' -> Subseq l (x :: l')
| sub_keep x l l' : Subseq l l' -> Subseq (x :: l) (x :: l').

(** ** Collaborators that keep their side of the contract *)

(** The downstream handler never panics on its own. *)
Fixpoint quiet (p : Prog) : Prop :=
  match p with
  | Return_ => True
  | Panic_ _ => False
  | CallWriteHeader _ k => quiet k
  | CallWrite _ k => forall n e, quiet (k n e)
  end.

(** The policy keeps to "either 0 or between 400 and 599". *)
Definition inContract {Request PolicyState : Type}
    (f : ShouldFail Request PolicyState) : Prop :=
  forall r b ps, valid (fst (f r b ps)).

(** The sink's methods always return. *)
Definition total {SinkState : Type} (rw : http_ResponseWriter SinkState)
  : Prop :=
  (forall c k, fst (rwWriteHeader rw c k) = Returns tt) /\
  (forall d k, exists a, fst (rwWrite rw d k) = Returns a).

(** ** Concrete collaborators

    The sinks, policies and handlers of the package's tests, used to run the
    model on the tests' scenarios. *)
Module Fixture.

(** A recording sink in the style of [httptest.ResponseRecorder]: the first
    status wins and the body accumulates. *)
Record Recorder : Type := {
  Code : Z;
  wroteHeader : bool;
  Body : list byte
}.

Definition NewRecorder : Recorder :=
  {| Code := 200; wroteHeader := false; Body := [] |}.

(** With [strict] the recorder rejects codes outside 100..999 by a panic, as
    the writers of [net/http] do; without it any code is stored. *)
Definition recorder (strict : bool) : http_ResponseWriter Recorder := {|
  rwWriteHeader := fun code rec =>
    if wroteHeader rec then (Returns tt, rec)
    else if strict && ((code <? 100) || (code >? 999)) then
      (Panics ("invalid WriteHeader code " ++
               NilZero.string_of_int (Z.to_int code))%string, rec)
    else (Returns tt, {| Code := code; wroteHeader := true; Body := Body rec |});
  rwWrite := fun data rec =>
    (Returns (Z.of_nat (List.length data), None),
     {| Code := if wroteHeader rec then Code rec else 200;
        wroteHeader := true;
        Body := Body rec ++ data |})
|}.

(** The same answer at both phases. *)
Definition always (s : Z) : ShouldFail string unit :=
  fun _ _ st => (s, st).

(** [s] before dispatch, 0 at the commit. *)
Definition early (s : Z) : ShouldFail string unit :=
  fun _ afterHeader st => (if afterHeader then 0 else s, st).

(** 0 before dispatch, [s] at the commit. *)
Definition late (s : Z) : ShouldFail string unit :=
  fun _ afterHeader st => (if afterHeader then s else 0, st).

(** A policy with state: it answers from a script, then 0. *)
Definition scripted : ShouldFail string (list Z) :=
  fun _ _ st => (hd 0 st, tl st).

Definition hello : list byte := list_byte_of_string "hello".

(** [io.WriteString(w, "hello")] *)
Definition writesHello : http_Handler string :=
  fun _ => straight [DoWrite hello].

(** [w.WriteHeader(201); w.WriteHeader(202); io.WriteString(w, "hello")] *)
Definition doubleWriteHeader : http_Handler string :=
  fun _ => straight [DoWriteHeader 201; DoWriteHeader 202; DoWrite hello].

(** [io.WriteString(w, "hello"); w.WriteHeader(201)] *)
Definition writesThenSetsStatus : http_Handler string :=
  fun _ => straight [DoWrite hello; DoWriteHeader 201].

(** [w.WriteHeader(0); w.WriteHeader(201)] *)
Definition zeroThenCreated : http_Handler string :=
  fun _ => straight [DoWriteHeader 0; DoWriteHeader 201].

(** [w.WriteHeader(0); w.WriteHeader(0)] *)
Definition zeroTwice : http_Handler string :=
  fun _ => straight [DoWriteHeader 0; DoWriteHeader 0].

Definition handler {P : Type} (h : http_Handler string)
    (f : ShouldFail string P) : Handler string P :=
  {| Handler_Handler := h; Handler_ShouldFail := f |}.

Definition start {P : Type} (p : P) : World P Recorder :=
  {| policy := p; sink := NewRecorder |}.

(** The decorator as [ServeHTTP] builds it for [GET /foo]. *)
Definition guard {P : Type} (strict : bool) (f : ShouldFail string P)
  : responseWriter string P Recorder :=
  {| ResponseWriter := recorder strict; req := "/foo"%string;
     shouldFail := f; status := 0 |}.

(** One request [GET /foo] served into a fresh recorder. *)
Definition run {P : Type} (strict : bool) (h : http_Handler string)
    (f : ShouldFail string P) (p : P)
  : Result unit * World P Recorder * list Event :=
  ServeHTTP (handler h f) (recorder strict) "/foo"%string (start p).

(** A sink that refuses every status by a panic, as a writer does once its
    connection is gone; bytes are stored as by the recorder. *)
Definition refusing : http_ResponseWriter Recorder := {|
  rwWriteHeader := fun _ rec => (Panics "refused"%string, rec);
  rwWrite := rwWrite (recorder false)
|}.

(** [attemptWriteHeader(w, 99); w.WriteHeader(500)], where the first call
    runs under a deferred [recover()]. *)
Definition retriesStatus : Recover.http_Handler string :=
  fun _ => TryWriteHeader 99 (fun _ => TryWriteHeader 500 (fun _ => Finish)).

(** Two writes, each under a deferred [recover()]. *)
Definition retriesWrite : Recover.http_Handler string :=
  fun _ => TryWrite hello (fun _ => TryWrite hello (fun _ => Finish)).

(** [io.WriteString(w, "hello"); panic("boom")] *)
Definition writesThenFaults : Recover.http_Handler string :=
  fun _ => TryWrite hello (fun _ => Fault "boom"%string).

(** A handler of the tests as a handler that could recover but does not. *)
Definition plainly (h : http_Handler string) : Recover.http_Handler string :=
  fun r => plain (h r).

Definition recovering {P : Type} (h : Recover.http_Handler string)
    (f : ShouldFail string P) : Recover.Handler string P :=
  {| Recover.Handler_Handler := h; Recover.Handler_ShouldFail := f |}.

(** One request [GET /foo] of a handler that may recover, served by [w] from
    a fresh recorder. *)
Definition attend {P : Type} (w : http_ResponseWriter Recorder)
    (h : Recover.http_Handler string) (f : ShouldFail string P) (p : P)
  : Result unit * World P Recorder * list Event :=
  Recover.ServeHTTP (recovering h f) w "/foo"%string (start p).

End Fixture.

(** * Properties *)

(** ** Single calls on the decorator *)

Lemma valid_dec (s : Z) :
  (negb (s =? 0)) && ((s <? 400) || (s >=? 600)) = true <-> ~ valid s.
Proof.
  unfold valid. rewrite Z.geb_leb.
  destruct (Z.eqb_spec s 0), (Z.ltb_spec s 400), (Z.leb_spec 600 s);
    simpl; split; intros; try discriminate; try lia.
Qed.

Lemma resolve_valid_nonzero (s c : Z) :
  valid s -> c <> 0 -> resolve s c <> 0.
Proof.
  unfold valid, resolve. destruct (Z.eqb_spec s 0); lia.
Qed.

Lemma resolve_zero (c : Z) : resolve 0 c = c.
Proof. reflexivity. Qed.

Lemma resolve_forced (s c : Z) : s <> 0 -> resolve s c = s.
Proof. unfold resolve. destruct (Z.eqb_spec s 0); intuition. Qed.

Section Calls.
Context {Request PolicyState SinkState : Type}.
Local Abbreviation RW := (responseWriter Request PolicyState SinkState).
Local Abbreviation W := (World PolicyState SinkState).

(** [WriteHeader] goes one of the four ways of [WriteHeaderStep]. *)
Lemma WriteHeader_step (code : Z) (g : RW) (w : W) :
  WriteHeaderStep code g w (WriteHeader code (g, w)).
Proof.
  unfold WriteHeader, bind, self, onWorld, callShouldFail; simpl.
  destruct (Z.eqb_spec (status g) 0) as [Hst | Hst]; simpl.
  2: now constructor.
  destruct (shouldFail g (req g) true (policy w)) as [s p] eqn:Hpol.
  pose proof (valid_dec s) as Hv.
  destruct (Z.eqb_spec s 0) as [Hs | Hs]; simpl in *.
  - assert (valid s) as Hok by (left; exact Hs).
    subst s.
    pose proof (wh_commits code g w 0 p) as Hc.
    pose proof (wh_sink_panics code g w 0 p) as Hp.
    rewrite resolve_zero in Hc, Hp.
    unfold ret, sinkWriteHeader, setStatus; simpl.
    destruct (rwWriteHeader (ResponseWriter g) code (sink w))
      as [[u | v] k] eqn:Hsink; simpl; eauto.
  - destruct ((s <? 400) || (s >=? 600)) eqn:Hrange; simpl.
    + unfold panic; simpl. eapply wh_invalid; eauto. now apply Hv.
    + assert (valid s) as Hok.
      { destruct (Z.ltb_spec s 400), (Z.geb_spec s 600);
          simpl in Hrange; try discriminate. right. lia. }
      pose proof (wh_commits code g w s p) as Hc.
      pose proof (wh_sink_panics code g w s p) as Hp.
      rewrite (resolve_forced s code Hs) in Hc, Hp.
      unfold ret, sinkWriteHeader, setStatus; simpl.
      destruct (rwWriteHeader (ResponseWriter g) s (sink w))
        as [[u | v] k] eqn:Hsink; simpl; eauto.
Qed.

(** [Write] commits first when nothing is committed, then delegates. *)
Lemma Write_step (data : list byte) (g : RW) (w : W) :
  WriteStep data g w (Write data (g, w)).
Proof.
  unfold Write, bind, self; simpl.
  destruct (Z.eqb_spec (status g) 0) as [Hst | Hst].
  - destruct (WriteHeader StatusOK (g, w)) as [[[u | v] [g' w']] t] eqn:Hwh.
    + unfold onWorld, sinkWrite; simpl.
      destruct (rwWrite (ResponseWriter g) data (sink w')) as [res k] eqn:Hw.
      eapply w_commits; eauto.
    + eapply w_commit_panics; eauto.
  - unfold ret, onWorld, sinkWrite; simpl.
    destruct (rwWrite (ResponseWriter g) data (sink w)) as [res k] eqn:Hw.
    now apply w_committed.
Qed.

Ltac st0 :=
  match goal with H : status ?g = 0 |- _ => rewrite H end.

(** Every run of a downstream handler against the decorator follows the
    protocol [Served]. *)
Lemma serve_Served (p : Prog) :
  forall (g : RW) (w : W),
    Served (status g) (trace (serve p (g, w))) (outcome (serve p (g, w))).
Proof.
  induction p as [ | v | c k IH | d k IH ]; intros g w.
  - apply sv_return.
  - apply sv_fault.
  - cbn [serve]. unfold bind at 1, emit.
    unfold bind.
    pose proof (WriteHeader_step c g w) as Hs.
    destruct (WriteHeader c (g, w)) as [[r1 [g1 w1]] t1].
    inversion Hs; subst; clear Hs.
    + specialize (IH g1 w1).
      destruct (serve k (g1, w1)) as [[r2 s2] t2]; cbn in *.
      now apply sv_wh_skip.
    + cbn. st0. now apply sv_wh_invalid.
    + cbn. st0. now apply sv_wh_sink_panics.
    + specialize (IH (withStatus g (resolve s c))
                     {| policy := p; sink := k0 |}).
      destruct (serve k _) as [[r2 s2] t2]; cbn in *.
      st0. now apply sv_wh_commit.
  - cbn [serve]. unfold bind at 1, emit.
    unfold bind.
    pose proof (Write_step d g w) as Hs.
    destruct (Write d (g, w)) as [[r1 [g1 w1]] t1].
    inversion Hs as [res k0 Hst Hw | v s' t Hst Hwh | u g' w' t res k0 Hst Hwh Hw];
      subst; clear Hs.
    + destruct r1 as [[n e] | v].
      * specialize (IH n e g1 {| policy := policy w; sink := k0 |}).
        cbn [fst snd].
        destruct (serve (k n e) _) as [[r2 s2] t2]; cbn in *.
        now apply sv_w.
      * cbn. now apply sv_w_panics.
    + pose proof (WriteHeader_step StatusOK g w) as Hh.
      rewrite Hwh in Hh. inversion Hh; subst; clear Hh; cbn.
      * st0. now apply sv_w_invalid.
      * st0. now apply sv_w_header_panics.
    + pose proof (WriteHeader_step StatusOK g w) as Hh.
      rewrite Hwh in Hh. inversion Hh; subst; clear Hh; [congruence | ].
      destruct r1 as [[n e] | v].
      * specialize (IH n e (withStatus g (resolve s StatusOK))
                       {| policy := p; sink := k0 |}).
        cbn [fst snd policy].
        destruct (serve (k n e) _) as [[r2 s2] t2]; cbn in *.
        st0. now apply sv_w_commit.
      * cbn. st0. now apply sv_w_commit_panics.
Qed.

(** [ServeHTTP] goes one of the three ways of [ServeHTTPStep]. *)
Lemma ServeHTTP_step (h : Handler Request PolicyState)
    (w : http_ResponseWriter SinkState) (rq : Request) (w0 : W) :
  ServeHTTPStep h w rq w0 (ServeHTTP h w rq w0).
Proof.
  unfold ServeHTTP, bind, callShouldFail.
  destruct (Handler_ShouldFail h rq false (policy w0)) as [s p] eqn:Hpol.
  pose proof (valid_dec s) as Hv.
  destruct (Z.eqb_spec s 0) as [Hs | Hs]; cbn [negb andb] in *.
  - subst s. unfold emit, withGuard.
    destruct (serve _ _) as [[res [g' w']] t] eqn:Hserve. cbn.
    eapply serve_dispatch; eauto.
  - destruct ((s <? 400) || (s >=? 600)) eqn:Hrange.
    + unfold panic. cbn. eapply serve_invalid; eauto. now apply Hv.
    + assert (valid s) as Hok.
      { destruct (Z.ltb_spec s 400), (Z.geb_spec s 600);
          simpl in Hrange; try discriminate. right. lia. }
      unfold sinkWriteHeader. cbn.
      destruct (rwWriteHeader w s (sink w0)) as [res k] eqn:Hsink.
      eapply serve_forced; eauto.
Qed.

(** Every request follows the protocol [Handled]. *)
Lemma ServeHTTP_Handled (h : Handler Request PolicyState)
    (w : http_ResponseWriter SinkState) (rq : Request) (w0 : W) :
  Handled (trace (ServeHTTP h w rq w0)) (outcome (ServeHTTP h w rq w0)).
Proof.
  destruct (ServeHTTP_step h w rq w0) as
    [s p Hpol Hbad | s p res k Hpol Hok Hs Hsink | p res g' w' t Hpol Hserve];
    cbn.
  - now apply hd_invalid.
  - now apply hd_forced.
  - apply hd_dispatch.
    pose proof (serve_Served (Handler_Handler h rq)
                  {| ResponseWriter := w; req := rq;
                     shouldFail := Handler_ShouldFail h; status := 0 |}
                  {| policy := p; sink := sink w0 |}) as Hsv.
    rewrite Hserve in Hsv. exact Hsv.
Qed.

End Calls.

(** ** Reading the protocol *)



(** Once a status is recorded the decorator is transparent: the policy and
    the sink's [WriteHeader] are left alone and every [Write] is passed on. *)
Lemma Served_committed (st : Z) (t : list Event) (r : Result unit) :
  Served st t r -> st <> 0 ->
  decisions true t = [] /\ decisions false t = [] /\ sinkStatuses t = [] /\
  sinkWrites t = guardWrites t /\ invocations t = 0%nat.
Proof.
  induction 1; intros Hst; try congruence;
    unfold decisions, sinkStatuses, sinkWrites, guardWrites, invocations in *;
    cbn; try tauto.
  destruct IHServed as (? & ? & ? & Hw & ?); [assumption | ].
  repeat split; try assumption. now f_equal.
Qed.

(** The pre-dispatch flag and the downstream entry never occur inside a
    dispatch. *)
Lemma Served_inside (st : Z) (t : list Event) (r : Result unit) :
  Served st t r -> decisions false t = [] /\ invocations t = 0%nat.
Proof.
  induction 1; unfold decisions, invocations in *; cbn; tauto.
Qed.



Lemma Handled_order (t : list Event) (r : Result unit) :
  Handled t r ->
  (exists s, hd_error t = Some (ShouldFailCall false s)) /\
  forall pre s post,
    t = pre ++ ShouldFailCall true s :: post ->
    exists pre', pre = ShouldFailCall false 0 :: pre'.
Proof.
  intros Hh.
  destruct Hh as [x Hx | x r Hok Hx | t r Hsv];
    (split; [eexists; reflexivity | ]); intros pre s post Heq.
  - destruct pre as [ | e [ | e' pre]]; discriminate.
  - destruct pre as [ | e [ | e' [ | e'' pre]]]; discriminate.
  - destruct pre as [ | e pre]; [discriminate | ].
    injection Heq as <- _. now exists pre.
Qed.

(** ** One request through [ServeHTTP] *)

Section Requests.
Context {Request PolicyState SinkState : Type}.
Variable h : Handler Request PolicyState.
Variable w : http_ResponseWriter SinkState.
Variable rq : Request.
Variable w0 : World PolicyState SinkState.

Local Abbreviation run := (ServeHTTP h w rq w0).

(** X1. The policy is asked before dispatch exactly once, first of all, in
    the state the request starts with, whatever the handler and the sink do
    afterwards. *)
Lemma first_decision :
  exists rest,
    trace run =
      ShouldFailCall false (fst (Handler_ShouldFail h rq false (policy w0)))
        :: rest /\
    decisions false rest = [].
Proof.
  destruct (ServeHTTP_step h w rq w0) as
    [s p Hpol Hbad | s p res k Hpol Hok Hs Hsink | p res g' w' t Hpol Hserve];
    rewrite Hpol; cbn; eexists; split; try reflexivity.
  pose proof (serve_Served (Handler_Handler h rq)
                {| ResponseWriter := w; req := rq;
                   shouldFail := Handler_ShouldFail h; status := 0 |}
                {| policy := p; sink := sink w0 |}) as Hsv.
  rewrite Hserve in Hsv. apply Served_inside in Hsv. apply Hsv.
Qed.

(** C1. When the answer before dispatch is a status in 400..599, the
    request consists of that answer and one [WriteHeader] of it on the real
    sink: the downstream handler is not entered, no byte is written, and the
    sink is left as its own [WriteHeader] leaves it. *)
Theorem early_failure_short_circuits (s : Z) :
  decisions false (trace run) = [s] -> 400 <= s < 600 ->
  trace run = [ShouldFailCall false s; SinkWriteHeader s] /\
  invocations (trace run) = 0%nat /\
  sinkStatuses (trace run) = [s] /\
  sinkWrites (trace run) = [] /\
  (outcome run, sink (final run)) = rwWriteHeader w s (sink w0).
Proof.
  intros Hdec Hrange.
  destruct (ServeHTTP_step h w rq w0) as
    [x p Hpol Hbad | x p res k Hpol Hok Hx Hsink | p res g' w' t Hpol Hserve];
    cbn in Hdec |- *.
  - injection Hdec as ->. exfalso. apply Hbad. now right.
  - injection Hdec as ->. rewrite Hsink. repeat split.
  - injection Hdec as Hs _. lia.
Qed.


(** C10. The first event of a request is the policy's call with
    [afterHeader = false], and whenever the policy is called with
    [afterHeader = true] the events before it start with such a call that
    returned 0. *)
Theorem commit_decision_after_dispatch_decision :
  (exists s, hd_error (trace run) = Some (ShouldFailCall false s)) /\
  forall pre s post,
    trace run = pre ++ ShouldFailCall true s :: post ->
    exists pre', pre = ShouldFailCall false 0 :: pre'.
Proof.
  apply (Handled_order _ (outcome run)), ServeHTTP_Handled.
Qed.

End Requests.

(** ** Calls of the downstream handler on the decorator *)

Section Decorator.
Context {Request PolicyState SinkState : Type}.
Variable g : responseWriter Request PolicyState SinkState.
Variable w : World PolicyState SinkState.

(** A decorator that has recorded a status ignores [WriteHeader]. *)
Lemma WriteHeader_committed (code : Z) :
  status g <> 0 -> WriteHeader code (g, w) = (Returns tt, (g, w), []).
Proof.
  intros Hst.
  destruct (WriteHeader_step code g w); try congruence.
Qed.

(** A decorator that has recorded a status keeps it through [Write]. *)
Lemma Write_committed (data : list byte) :
  status g <> 0 -> fst (final (Write data (g, w))) = g.
Proof.
  intros Hst.
  destruct (Write_step data g w); try congruence. reflexivity.
Qed.

(** [WriteHeader] never writes bytes on the sink. *)
Lemma WriteHeader_no_bytes (code : Z) :
  sinkWrites (trace (WriteHeader code (g, w))) = [].
Proof.
  destruct (WriteHeader_step code g w); reflexivity.
Qed.

(** C9. When nothing is committed and the policy's answer at the commit is
    neither 0 nor in 400..599, [WriteHeader] panics with the value in the
    message, the decorator is unchanged (its status is still 0), the sink
    is untouched, and the only event is the policy's call. *)
Theorem invalid_commit_is_atomic (code s : Z) :
  status g = 0 ->
  fst (shouldFail g (req g) true (policy w)) = s ->
  ~ valid s ->
  outcome (WriteHeader code (g, w)) = Panics (unexpected s) /\
  fst (final (WriteHeader code (g, w))) = g /\
  sink (snd (final (WriteHeader code (g, w)))) = sink w /\
  trace (WriteHeader code (g, w)) = [ShouldFailCall true s] /\
  sinkStatuses (trace (WriteHeader code (g, w))) = [].
Proof.
  intros Hst Hpol Hbad.
  destruct (WriteHeader_step code g w) as
    [Hc | x p _ Hx Hv | x p v k _ Hx Hv Hs | x p u k _ Hx Hv Hs];
    try congruence; rewrite Hx in Hpol; cbn in Hpol; subst x;
    try contradiction.
  repeat split.
Qed.

(** C8. [Write] hands the slice it is given to the sink's [Write], once
    and unchanged, and its result (size and error, or the sink's panic) and
    the sink's state are those of the sink's [Write]; the only thing that
    can come before is the implicit commit, and only if that panics is
    nothing delegated. *)
Theorem Write_delegates (data : list byte) :
  let pre := if status g =? 0 then WriteHeader StatusOK (g, w)
             else (Returns tt, (g, w), []) in
  match outcome pre with
  | Panics v =>
      Write data (g, w) = (Panics v, final pre, trace pre) /\
      sinkWrites (trace (Write data (g, w))) = []
  | Returns _ =>
      trace (Write data (g, w)) = trace pre ++ [SinkWrite data] /\
      sinkWrites (trace (Write data (g, w))) = [data] /\
      (outcome (Write data (g, w)), sink (snd (final (Write data (g, w))))) =
        rwWrite (ResponseWriter g) data (sink (snd (final pre)))
  end.
Proof.
  cbn zeta.
  destruct (Write_step data g w) as
    [res k Hst Hw | v s' t Hst Hwh | u g' w' t res k Hst Hwh Hw].
  - destruct (Z.eqb_spec (status g) 0); [contradiction | ].
    cbn. rewrite Hw. repeat split.
  - rewrite Hst. cbn [Z.eqb]. rewrite Hwh. cbn. split; [reflexivity | ].
    pose proof (WriteHeader_no_bytes StatusOK) as Hnb.
    rewrite Hwh in Hnb. exact Hnb.
  - rewrite Hst. cbn [Z.eqb]. rewrite Hwh. cbn. rewrite Hw.
    pose proof (WriteHeader_no_bytes StatusOK) as Hnb.
    rewrite Hwh in Hnb. cbn in Hnb.
    repeat split. unfold sinkWrites in *. rewrite flat_map_app, Hnb.
    reflexivity.
Qed.

(** C4 (amended). With nothing committed and no fault injected, a
    [WriteHeader] with a code other than 0 that returns records that code
    and commits it on the sink; from then on the decorator keeps it through
    every [Write], and any further [WriteHeader], in whatever state the
    sink is by then, returns without an event and changes nothing. *)
Theorem second_WriteHeader_is_noop (c1 c2 : Z) :
  status g = 0 -> c1 <> 0 ->
  fst (shouldFail g (req g) true (policy w)) = 0 ->
  outcome (WriteHeader c1 (g, w)) = Returns tt ->
  let g1 := fst (final (WriteHeader c1 (g, w))) in
  status g1 = c1 /\
  sinkStatuses (trace (WriteHeader c1 (g, w))) = [c1] /\
  (forall data w', fst (final (Write data (g1, w'))) = g1) /\
  (forall w', WriteHeader c2 (g1, w') = (Returns tt, (g1, w'), [])).
Proof.
  intros Hst Hc1 Hpol Hret. cbn zeta.
  assert (status (fst (final (WriteHeader c1 (g, w)))) = c1 /\
          sinkStatuses (trace (WriteHeader c1 (g, w))) = [c1]) as [H1 H2].
  { destruct (WriteHeader_step c1 g w) as
      [Hc | x p _ Hx Hv | x p v k _ Hx Hv Hs | x p u k _ Hx Hv Hs];
      try congruence; try discriminate.
    rewrite Hx in Hpol. cbn in Hpol. subst x. now split. }
  repeat split; try assumption.
  - intros data w'.
    destruct (Write_step data (fst (final (WriteHeader c1 (g, w)))) w');
      try congruence. reflexivity.
  - intros w'.
    destruct (WriteHeader_step c2 (fst (final (WriteHeader c1 (g, w)))) w');
      try congruence.
Qed.

End Decorator.

(** ** The scenarios of the tests *)

Import Fixture.

(** The handler writes "hello" and nothing is injected: 200 and "hello". *)
Example scenario_plain :
  let x := run true writesHello (always 0) tt in
  outcome x = Returns tt /\ Code (sink (final x)) = 200 /\
  Body (sink (final x)) = hello.
Proof. repeat split. Qed.

(** [TestServeHTTP_early]: 500 at the commit keeps the body. *)
Example scenario_late_500 :
  let x := run true writesHello (late 500) tt in
  outcome x = Returns tt /\ Code (sink (final x)) = 500 /\
  Body (sink (final x)) = hello.
Proof. repeat split. Qed.

(** [TestServeHTTP_late]: 500 before dispatch, empty body. *)
Example scenario_early_500 :
  let x := run true writesHello (early 500) tt in
  outcome x = Returns tt /\ Code (sink (final x)) = 500 /\
  Body (sink (final x)) = [] /\ invocations (trace x) = 0%nat.
Proof. repeat split. Qed.

(** [TestServeHTTP_double_WriteHeader]: 201 wins over 202. *)
Example scenario_double_WriteHeader :
  let x := run true doubleWriteHeader (always 0) tt in
  outcome x = Returns tt /\ Code (sink (final x)) = 201 /\
  Body (sink (final x)) = hello /\ sinkStatuses (trace x) = [201].
Proof. repeat split. Qed.

(** [TestServeHTTP_panic_early]: 200 before dispatch panics, handler not
    called. *)
Example scenario_panic_early :
  let x := run true writesHello (early 200) tt in
  outcome x = Panics "unexpected status code 200" /\
  invocations (trace x) = 0%nat.
Proof. repeat split. Qed.

(** [TestServeHTTP_panic_late]: 200 at the commit panics, handler called. *)
Example scenario_panic_late :
  let x := run true writesHello (late 200) tt in
  outcome x = Panics "unexpected status code 200" /\
  invocations (trace x) = 1%nat /\ Body (sink (final x)) = [].
Proof. repeat split. Qed.

(** A sink of [net/http] refuses the code 0 by a panic of its own. *)
Example scenario_zero_strict :
  let x := run true zeroTwice (always 0) tt in
  outcome x = Panics "invalid WriteHeader code 0" /\
  sinkStatuses (trace x) = [0].
Proof. repeat split. Qed.

(** A policy with state: 0 before dispatch, then 503 at the commit. *)
Example scenario_scripted :
  let x := run true writesHello scripted [0; 503] in
  outcome x = Returns tt /\ Code (sink (final x)) = 503 /\
  Body (sink (final x)) = hello /\ policy (final x) = [].
Proof. repeat split. Qed.

(** ** The theorems at work, and where the stated claims stop *)

Lemma early_failure_short_circuits_witness :
  let x := run true writesHello (early 500) tt in
  (decisions false (trace x) = [500] /\ 400 <= 500 < 600) /\
  trace x = [ShouldFailCall false 500; SinkWriteHeader 500] /\
  invocations (trace x) = 0%nat /\
  sinkStatuses (trace x) = [500] /\
  sinkWrites (trace x) = [] /\
  (outcome x, sink (final x)) =
    rwWriteHeader (recorder true) 500 (sink (start tt)).
Proof.
  cbn zeta. split; [split; [reflexivity | lia] | ].
  apply (early_failure_short_circuits (handler writesHello (early 500))
           (recorder true) "/foo"%string (start tt) 500);
    [reflexivity | lia].
Defined.

Lemma second_WriteHeader_is_noop_witness :
  let g := guard true (always 0) in
  let w := start tt in
  (status g = 0 /\ 201 <> 0 /\
   fst (shouldFail g (req g) true (policy w)) = 0 /\
   outcome (WriteHeader 201 (g, w)) = Returns tt) /\
  let g1 := fst (final (WriteHeader 201 (g, w))) in
  status g1 = 201 /\
  sinkStatuses (trace (WriteHeader 201 (g, w))) = [201] /\
  (forall data w', fst (final (Write data (g1, w'))) = g1) /\
  (forall w', WriteHeader 202 (g1, w') = (Returns tt, (g1, w'), [])).
Proof.
  cbn zeta. split; [repeat split; discriminate | ].
  apply (second_WriteHeader_is_noop (guard true (always 0)) (start tt) 201 202);
    [reflexivity | discriminate | reflexivity | reflexivity].
Defined.

(** C4. As stated the claim fails when the first code is 0 and the sink
    accepts it: the decorator stays uncommitted, so the second call asks the
    policy again, reaches the sink and records its own code. *)
Lemma second_WriteHeader_counterexample :
  let g := guard false (always 0) in
  let first := WriteHeader 0 (g, start tt) in
  let second := WriteHeader 201 (final first) in
  outcome first = Returns tt /\
  trace second = [ShouldFailCall true 0; SinkWriteHeader 201] /\
  status (fst (final second)) = 201 /\
  second <> (Returns tt, final first, []).
Proof.
  cbn zeta. repeat split. discriminate.
Qed.


Lemma invalid_commit_is_atomic_witness :
  let g := guard true (late 200) in
  let w := start tt in
  (status g = 0 /\ fst (shouldFail g (req g) true (policy w)) = 200 /\
   ~ valid 200) /\
  outcome (WriteHeader 201 (g, w)) = Panics (unexpected 200) /\
  fst (final (WriteHeader 201 (g, w))) = g /\
  sink (snd (final (WriteHeader 201 (g, w)))) = sink w /\
  trace (WriteHeader 201 (g, w)) = [ShouldFailCall true 200] /\
  sinkStatuses (trace (WriteHeader 201 (g, w))) = [].
Proof.
  cbn zeta.
  assert (~ valid 200) as Hbad by (unfold valid; lia).
  split; [repeat split; exact Hbad | ].
  apply (invalid_commit_is_atomic (guard true (late 200)) (start tt) 201 200);
    [reflexivity | reflexivity | exact Hbad].
Defined.

Lemma commit_decision_after_dispatch_decision_witness :
  let x := run true writesHello (late 500) tt in
  (exists s, hd_error (trace x) = Some (ShouldFailCall false s)) /\
  forall pre s post,
    trace x = pre ++ ShouldFailCall true s :: post ->
    exists pre', pre = ShouldFailCall false 0 :: pre'.
Proof.
  cbn zeta.
  apply (commit_decision_after_dispatch_decision
           (handler writesHello (late 500)) (recorder true)
           "/foo"%string (start tt)).
Defined.

Lemma Write_delegates_witness :
  let g := guard true (late 500) in
  let x := Write hello (g, start tt) in
  trace x = [ShouldFailCall true 500; SinkWriteHeader 500; SinkWrite hello] /\
  sinkWrites (trace x) = [hello] /\
  (outcome x, sink (snd (final x))) =
    (Returns (5, None),
     {| Code := 500; wroteHeader := true; Body := hello |}).
Proof.
  exact (Write_delegates (guard true (late 500)) (start tt) hello).
Defined.

(** ** How the calls on the decorator compose *)

Section Laws.
Context {Request PolicyState SinkState : Type}.
Local Abbreviation RW := (responseWriter Request PolicyState SinkState).
Local Abbreviation W := (World PolicyState SinkState).

(** A [WriteHeader] that returns from an uncommitted decorator has recorded
    a status that is 0 only if the handler passed 0 and the policy let it
    through. *)
Lemma WriteHeader_returns (code : Z) (g : RW) (w : W) (u : unit) :
  status g = 0 ->
  outcome (WriteHeader code (g, w)) = Returns u ->
  exists s, valid s /\
    fst (final (WriteHeader code (g, w))) = withStatus g (resolve s code).
Proof.
  intros Hst Hret.
  destruct (WriteHeader_step code g w) as
    [Hc | x p _ Hx Hv | x p v k _ Hx Hv Hs | x p u' k _ Hx Hv Hs];
    try congruence; try discriminate.
  now exists x.
Qed.

(** A [Write] that returns leaves a status recorded. *)
Lemma Write_returns_committed (data : list byte) (g : RW) (w : W)
    (a : Z * error) :
  outcome (Write data (g, w)) = Returns a ->
  status (fst (final (Write data (g, w)))) <> 0.
Proof.
  intros Hret.
  destruct (Write_step data g w) as
    [res k Hst Hw | v s' t Hst Hwh | u g' w' t res k Hst Hwh Hw];
    unfold final, outcome in *; cbn [fst snd] in *.
  - exact Hst.
  - discriminate.
  - destruct (WriteHeader_returns StatusOK g w u Hst) as (s & Hok & Hg).
    { now rewrite Hwh. }
    rewrite Hwh in Hg. unfold final in Hg. cbn [fst snd] in Hg. subst g'.
    apply resolve_valid_nonzero; [assumption | discriminate].
Qed.

(** X2. A [WriteHeader] that follows a [Write] does nothing: whatever the
    code, the policy and the sink, the two calls in sequence leave the same
    result, state and events as the [Write] alone. *)
Theorem WriteHeader_after_Write (data : list byte) (code : Z) (g : RW) (w : W) :
  (Write data ;; WriteHeader code) (g, w) = (Write data ;; ret tt) (g, w).
Proof.
  unfold bind.
  pose proof (Write_returns_committed data g w) as Hc.
  destruct (Write data (g, w)) as [[[a | v] [g1 w1]] t]; [ | reflexivity].
  specialize (Hc a eq_refl). cbn in Hc.
  now rewrite (WriteHeader_committed g1 w1 code Hc).
Qed.

(** X3. A [WriteHeader] with a code other than 0 absorbs the next one:
    whether it commits the code, commits a forced status or panics, a second
    [WriteHeader] adds nothing to its result, state and events. *)
Theorem WriteHeader_absorbs (c1 c2 : Z) (g : RW) (w : W) :
  c1 <> 0 ->
  (WriteHeader c1 ;; WriteHeader c2) (g, w) = WriteHeader c1 (g, w).
Proof.
  intros Hc1. unfold bind.
  destruct (Z.eq_dec (status g) 0) as [Hst | Hst].
  - pose proof (WriteHeader_returns c1 g w) as Hr.
    destruct (WriteHeader c1 (g, w)) as [[[[] | v] [g1 w1]] t]; [ | reflexivity].
    destruct (Hr tt Hst eq_refl) as (s & Hok & Hg). cbn in Hg. subst g1.
    rewrite WriteHeader_committed.
    + now rewrite app_nil_r.
    + cbn. now apply resolve_valid_nonzero.
  - rewrite (WriteHeader_committed g w c1 Hst).
    now rewrite (WriteHeader_committed g w c2 Hst).
Qed.

(** X4. The implicit commit of [Write] is the explicit one: calling
    [WriteHeader(http.StatusOK)] and then [Write] is the same computation as
    [Write] alone, on every decorator and world. *)
Theorem implicit_commit_is_explicit (data : list byte) (g : RW) (w : W) :
  (WriteHeader StatusOK ;; Write data) (g, w) = Write data (g, w).
Proof.
  unfold bind.
  destruct (Z.eq_dec (status g) 0) as [Hst | Hst].
  - destruct (Write_step data g w) as
      [res k Hc Hw | v s' t _ Hwh | u g' w' t res k _ Hwh Hw];
      [contradiction | now rewrite Hwh | ].
    destruct (WriteHeader_returns StatusOK g w u Hst) as (s & Hok & Hg).
    { now rewrite Hwh. }
    rewrite Hwh in Hg |- *. unfold final in Hg. cbn [fst snd] in Hg.
    assert (status g' <> 0) as Hc.
    { subst g'. apply resolve_valid_nonzero; [assumption | discriminate]. }
    assert (ResponseWriter g' = ResponseWriter g) as Hrw by now subst g'.
    destruct (Write_step data g' w') as
      [res' k' _ Hw' | v s' t' Hz _ | u' g'' w'' t' res' k' Hz _ _];
      try contradiction.
    rewrite Hrw, Hw in Hw'. now injection Hw' as <- <-.
  - rewrite (WriteHeader_committed g w StatusOK Hst).
    destruct (Write data (g, w)) as [[r s2] e2]. reflexivity.
Qed.

(** X5. On an uncommitted decorator, when the policy's answer at the
    commit is neither 0 nor in 400..599, [Write] panics with the value in the
    message before anything reaches the sink: the only event is the policy's
    call, the decorator and the sink are as before. *)
Theorem Write_invalid_is_atomic (data : list byte) (g : RW) (w : W) (s : Z) :
  status g = 0 ->
  fst (shouldFail g (req g) true (policy w)) = s ->
  ~ valid s ->
  Write data (g, w) =
    (Panics (unexpected s),
     (g, {| policy := snd (shouldFail g (req g) true (policy w));
            sink := sink w |}),
     [ShouldFailCall true s]).
Proof.
  intros Hst Hpol Hbad.
  destruct (Write_step data g w) as
    [res k Hc Hw | v s' t _ Hwh | u g' w' t res k _ Hwh Hw];
    [contradiction | | ];
    destruct (WriteHeader_step StatusOK g w) as
      [Hc | x p _ Hx Hv | x p v' k' _ Hx Hv Hs | x p u' k' _ Hx Hv Hs];
    try contradiction; try discriminate;
    rewrite Hx in Hpol |- *; cbn [fst snd] in *; subst x; try contradiction.
  now injection Hwh as <- <- <-.
Qed.

(** X6. What the decorator records is what it committed: a [WriteHeader]
    on an uncommitted decorator that returns has called the sink's
    [WriteHeader] once, with the status it then holds; one that panics leaves
    the decorator as it was. *)
Theorem recorded_status_is_committed (code : Z) (g : RW) (w : W) :
  status g = 0 ->
  match outcome (WriteHeader code (g, w)) with
  | Returns _ =>
      sinkStatuses (trace (WriteHeader code (g, w))) =
        [status (fst (final (WriteHeader code (g, w))))]
  | Panics _ => fst (final (WriteHeader code (g, w))) = g
  end.
Proof.
  intros Hst.
  destruct (WriteHeader_step code g w) as
    [Hc | x p _ Hx Hv | x p v' k' _ Hx Hv Hs | x p u' k' _ Hx Hv Hs];
    try contradiction; reflexivity.
Qed.

(** X7. When the policy's answer at the commit is not 0, the code the
    handler passes is irrelevant: [WriteHeader] with any two codes is the
    same computation. *)
Theorem forced_status_ignores_code (c c' : Z) (g : RW) (w : W) :
  fst (shouldFail g (req g) true (policy w)) <> 0 ->
  WriteHeader c (g, w) = WriteHeader c' (g, w).
Proof.
  intros Hs.
  unfold WriteHeader, bind, self, onWorld, callShouldFail; simpl.
  destruct (Z.eqb_spec (status g) 0) as [Hst | Hst]; simpl; [ | reflexivity].
  destruct (shouldFail g (req g) true (policy w)) as [s p]. cbn in Hs.
  destruct (Z.eqb_spec s 0) as [Hz | Hz]; [contradiction | reflexivity].
Qed.

(** X8. Once a status is recorded the decorator is transparent for the rest
    of the handler: it is unchanged at the end, the policy is not called (its
    state is untouched), the sink's [WriteHeader] is not called, and every
    slice written reaches the sink. *)
Theorem committed_guard_is_transparent (p : Prog) :
  forall (g : RW) (w : W),
    status g <> 0 ->
    fst (final (serve p (g, w))) = g /\
    policy (snd (final (serve p (g, w)))) = policy w /\
    (forall b, decisions b (trace (serve p (g, w))) = []) /\
    sinkStatuses (trace (serve p (g, w))) = [] /\
    sinkWrites (trace (serve p (g, w))) = guardWrites (trace (serve p (g, w))).
Proof.
  intros g w Hst.
  destruct (Served_committed _ _ _ (serve_Served p g w) Hst)
    as (Ht & Hf & Hc & Hw & _).
  assert (fst (final (serve p (g, w))) = g /\
          policy (snd (final (serve p (g, w)))) = policy w) as [Hg Hp].
  { clear Ht Hf Hc Hw. revert w.
    induction p as [ | v | c k IH | d k IH ]; intros w; try (now split).
    - cbn [serve]. unfold bind, emit.
      rewrite (WriteHeader_committed g w c Hst).
      specialize (IH w). destruct (serve k (g, w)) as [[r s2] e2]. exact IH.
    - cbn [serve]. unfold bind, emit.
      destruct (Write_step d g w) as
        [res k0 _ Hw | v s' t Hz _ | u g' w' t res k0 Hz _ _];
        try contradiction.
      destruct res as [[n e] | v]; [ | now split].
      specialize (IH n e {| policy := policy w; sink := k0 |}).
      cbn [fst snd].
      destruct (serve (k n e) _) as [[r s2] e2]. exact IH. }
  repeat split; try assumption. intros []; assumption.
Qed.

(** A handler that does not panic, against a policy in contract and a sink
    that returns, runs to its end. *)
Lemma serve_returns (p : Prog) :
  forall (g : RW) (w : W),
    quiet p -> inContract (shouldFail g) -> total (ResponseWriter g) ->
    outcome (serve p (g, w)) = Returns tt.
Proof.
  induction p as [ | v | c k IH | d k IH ]; intros g w Hq Hin Htot.
  - reflexivity.
  - contradiction.
  - cbn [serve]. unfold bind, emit.
    destruct (WriteHeader_step c g w) as
      [Hc | x p _ Hx Hv | x p v' k' _ Hx Hv Hs | x p u' k' _ Hx Hv Hs].
    + specialize (IH g w Hq Hin Htot).
      destruct (serve k (g, w)) as [[r s2] e2]. exact IH.
    + exfalso. apply Hv. specialize (Hin (req g) true (policy w)).
      now rewrite Hx in Hin.
    + exfalso. destruct Htot as [Hwh _].
      specialize (Hwh (resolve x c) (sink w)). rewrite Hs in Hwh. discriminate.
    + specialize (IH (withStatus g (resolve x c))
                     {| policy := p; sink := k' |} Hq Hin Htot).
      destruct (serve k _) as [[r s2] e2]. exact IH.
  - cbn [serve]. unfold bind, emit.
    assert (forall g' w', ResponseWriter g' = ResponseWriter g ->
              shouldFail g' = shouldFail g ->
              forall a, outcome
                (let (p0, e2) := serve (k (fst a) (snd a)) (g', w') in
                 let (r, s2) := p0 in (r, s2, [GuardWrite d] ++ e2))
              = Returns tt) as Hk.
    { intros g' w' Hrw Hsf [n e]. cbn [fst snd].
      assert (outcome (serve (k n e) (g', w')) = Returns tt) as Ho.
      { apply IH; [apply Hq | now rewrite Hsf | now rewrite Hrw]. }
      destruct (serve (k n e) (g', w')) as [[r s2] e2]. exact Ho. }
    destruct Htot as [Hwh Hwr].
    destruct (Write_step d g w) as
      [res k0 _ Hw | v s' t Hz Hh | u g' w' t res k0 Hz Hh Hw].
    + destruct (Hwr d (sink w)) as [a Ha]. rewrite Hw in Ha. cbn in Ha.
      subst res. cbn [fst snd].
      specialize (Hk g {| policy := policy w; sink := k0 |} eq_refl eq_refl a).
      destruct a as [n e]. cbn [fst snd] in *.
      destruct (serve (k n e) _) as [[r s2] e2]. exact Hk.
    + exfalso.
      destruct (WriteHeader_step StatusOK g w) as
        [Hc | x p _ Hx Hv | x p v' k' _ Hx Hv Hs | x p u' k' _ Hx Hv Hs];
        try congruence; try discriminate.
      * apply Hv. specialize (Hin (req g) true (policy w)).
        now rewrite Hx in Hin.
      * specialize (Hwh (resolve x StatusOK) (sink w)). rewrite Hs in Hwh.
        discriminate.
    + destruct (WriteHeader_returns StatusOK g w u Hz) as (s & Hok & Hg).
      { now rewrite Hh. }
      rewrite Hh in Hg. unfold final in Hg. cbn [fst snd] in Hg.
      destruct (Hwr d (sink w')) as [a Ha]. rewrite Hw in Ha. cbn in Ha.
      subst res. cbn [fst snd].
      assert (ResponseWriter g' = ResponseWriter g) as Hrw by now subst g'.
      assert (shouldFail g' = shouldFail g) as Hsf by now subst g'.
      specialize (Hk g' {| policy := policy w'; sink := k0 |} Hrw Hsf a).
      destruct a as [n e]. cbn [fst snd] in *.
      destruct (serve (k n e) _) as [[r s2] e2].
      unfold outcome in *. cbn [fst snd] in *. exact Hk.
Qed.

(** The first answer at the commit is the policy's answer for the
    decorator's request in the policy state the handler starts with. *)
Lemma serve_first_commit_decision (p : Prog) (g : RW) (w : W) (s : Z) :
  status g = 0 ->
  hd_error (decisions true (trace (serve p (g, w)))) = Some s ->
  s = fst (shouldFail g (req g) true (policy w)).
Proof.
  intros Hst Hhd.
  destruct p as [ | v | c k | d k ]; try discriminate.
  - cbn [serve] in Hhd. unfold bind, emit in Hhd.
    destruct (WriteHeader_step c g w) as
      [Hc | x p _ Hx Hv | x p v' k' _ Hx Hv Hs | x p u' k' _ Hx Hv Hs];
      try contradiction; rewrite Hx; cbn [fst].
    + cbn in Hhd. now injection Hhd.
    + cbn in Hhd. now injection Hhd.
    + destruct (serve k _) as [[r s2] e2]. cbn in Hhd. now injection Hhd.
  - cbn [serve] in Hhd. unfold bind, emit in Hhd.
    destruct (Write_step d g w) as
      [res k0 Hc Hw | v s' t _ Hh | u g' w' t res k0 _ Hh Hw];
      try contradiction;
      destruct (WriteHeader_step StatusOK g w) as
        [Hc | x p _ Hx Hv | x p v' k' _ Hx Hv Hs | x p u' k' _ Hx Hv Hs];
      try contradiction; try discriminate; rewrite Hx; cbn [fst];
      inversion Hh; subst; clear Hh.
    + cbn in Hhd. now injection Hhd.
    + cbn in Hhd. now injection Hhd.
    + destruct res as [a | v].
      * destruct (serve (k (fst a) (snd a)) _) as [[r s2] e2].
        cbn in Hhd. now injection Hhd.
      * cbn in Hhd. now injection Hhd.
Qed.

End Laws.


(** The decimal form of an integer has digits. *)
Lemma to_int_nonnil (z : Z) :
  Z.to_int z <> Decimal.Pos Decimal.Nil /\ Z.to_int z <> Decimal.Neg Decimal.Nil.
Proof.
  destruct z; cbn; split; try discriminate;
    intros H; injection H as H;
    now apply (DecimalPos.Unsigned.to_uint_nonnil p).
Qed.

(** X9. The panic message determines the offending value: two values with
    the same message are equal. *)
Theorem unexpected_inj (s1 s2 : Z) : unexpected s1 = unexpected s2 -> s1 = s2.
Proof.
  unfold unexpected. intros H. cbn in H.
  repeat match type of H with String _ _ = String _ _ => injection H as H end.
  apply DecimalZ.to_int_inj.
  destruct (to_int_nonnil s1) as [Hp1 Hn1], (to_int_nonnil s2) as [Hp2 Hn2].
  pose proof (NilZero.isi _ Hp1 Hn1) as H1.
  pose proof (NilZero.isi _ Hp2 Hn2) as H2.
  rewrite H in H1. rewrite H1 in H2. now injection H2.
Qed.

Section MoreRequests.
Context {Request PolicyState SinkState : Type}.
Variable h : Handler Request PolicyState.
Variable w : http_ResponseWriter SinkState.
Variable rq : Request.
Variable w0 : World PolicyState SinkState.

Local Abbreviation run := (ServeHTTP h w rq w0).

(** X10. The package panics only on a policy out of contract: with a policy
    that answers 0 or 400..599, a sink whose methods return and a downstream
    handler that does not panic, [ServeHTTP] returns. *)
Theorem well_behaved_request_returns :
  inContract (Handler_ShouldFail h) -> total w ->
  quiet (Handler_Handler h rq) ->
  outcome run = Returns tt.
Proof.
  intros Hin Htot Hq.
  destruct (ServeHTTP_step h w rq w0) as
    [s p Hpol Hbad | s p res k Hpol Hok Hs Hsink | p res g' w' t Hpol Hserve].
  - exfalso. apply Hbad. specialize (Hin rq false (policy w0)).
    now rewrite Hpol in Hin.
  - destruct Htot as [Hwh _]. specialize (Hwh s (sink w0)).
    rewrite Hsink in Hwh. exact Hwh.
  - pose proof (serve_returns (Handler_Handler h rq)
                  {| ResponseWriter := w; req := rq;
                     shouldFail := Handler_ShouldFail h; status := 0 |}
                  {| policy := p; sink := sink w0 |} Hq Hin Htot) as Hr.
    rewrite Hserve in Hr. exact Hr.
Qed.

(** X11. The answer at the commit is the policy's answer for the same
    request, with [afterHeader = true], in the state its pre-dispatch call
    left: nothing else touches the policy in between. *)
Theorem commit_decision_sees_dispatch_state (s : Z) :
  hd_error (decisions true (trace run)) = Some s ->
  s = fst (Handler_ShouldFail h rq true
             (snd (Handler_ShouldFail h rq false (policy w0)))).
Proof.
  intros Hhd.
  destruct (ServeHTTP_step h w rq w0) as
    [x p Hpol Hbad | x p res k Hpol Hok Hx Hsink | p res g' w' t Hpol Hserve];
    try discriminate.
  rewrite Hpol. cbn [snd].
  pose proof (serve_first_commit_decision (Handler_Handler h rq)
                {| ResponseWriter := w; req := rq;
                   shouldFail := Handler_ShouldFail h; status := 0 |}
                {| policy := p; sink := sink w0 |} s eq_refl) as Hf.
  rewrite Hserve in Hf. apply Hf. exact Hhd.
Qed.

End MoreRequests.

(** ** The composition laws at work *)

Lemma WriteHeader_absorbs_witness :
  201 <> 0 /\
  (WriteHeader 201 ;; WriteHeader 202)%go (guard true (always 0), start tt) =
    WriteHeader 201 (guard true (always 0), start tt).
Proof.
  split; [discriminate | ].
  apply (WriteHeader_absorbs 201 202 (guard true (always 0)) (start tt)).
  discriminate.
Defined.

Lemma Write_invalid_is_atomic_witness :
  let g := guard true (late 200) in
  let w := start tt in
  (status g = 0 /\ fst (shouldFail g (req g) true (policy w)) = 200 /\
   ~ valid 200) /\
  Write hello (g, w) =
    (Panics (unexpected 200),
     (g, {| policy := snd (shouldFail g (req g) true (policy w));
            sink := sink w |}),
     [ShouldFailCall true 200]).
Proof.
  cbn zeta.
  assert (~ valid 200) as Hbad by (unfold valid; lia).
  split; [repeat split; exact Hbad | ].
  apply (Write_invalid_is_atomic hello (guard true (late 200)) (start tt) 200);
    [reflexivity | reflexivity | exact Hbad].
Defined.

Lemma recorded_status_is_committed_witness :
  let g := guard true (late 503) in
  status g = 0 /\
  sinkStatuses (trace (WriteHeader 201 (g, start tt))) =
    [status (fst (final (WriteHeader 201 (g, start tt))))].
Proof.
  cbn zeta. split; [reflexivity | ].
  exact (recorded_status_is_committed 201 (guard true (late 503)) (start tt)
           eq_refl).
Defined.

Lemma forced_status_ignores_code_witness :
  let g := guard true (late 503) in
  fst (shouldFail g (req g) true (policy (start tt))) <> 0 /\
  WriteHeader 201 (g, start tt) = WriteHeader 404 (g, start tt).
Proof.
  cbn zeta. split; [discriminate | ].
  apply (forced_status_ignores_code 201 404 (guard true (late 503)) (start tt)).
  discriminate.
Defined.

Lemma committed_guard_is_transparent_witness :
  let g := withStatus (guard true (late 503)) 201 in
  let x := serve (doubleWriteHeader "/foo"%string) (g, start tt) in
  status g <> 0 /\
  fst (final x) = g /\
  policy (snd (final x)) = policy (start tt) /\
  (forall b, decisions b (trace x) = []) /\
  sinkStatuses (trace x) = [] /\
  sinkWrites (trace x) = guardWrites (trace x).
Proof.
  cbn zeta. split; [discriminate | ].
  apply (committed_guard_is_transparent (doubleWriteHeader "/foo"%string)
           (withStatus (guard true (late 503)) 201) (start tt)).
  discriminate.
Defined.

Lemma unexpected_inj_witness :
  unexpected 399 = unexpected 399 /\ 399 = 399.
Proof.
  split; [reflexivity | ].
  apply (unexpected_inj 399 399). reflexivity.
Defined.

Lemma well_behaved_request_returns_witness :
  (inContract (late 503) /\ total (recorder false) /\
   quiet (doubleWriteHeader "/foo"%string)) /\
  outcome (run false doubleWriteHeader (late 503) tt) = Returns tt.
Proof.
  assert (inContract (late 503)) as Hin.
  { intros r b ps. destruct b; cbn; [right; lia | now left]. }
  assert (total (recorder false)) as Htot.
  { split.
    - intros c k. cbn. now destruct (wroteHeader k).
    - intros d k. eexists. reflexivity. }
  assert (quiet (doubleWriteHeader "/foo"%string)) as Hq.
  { cbn. intros n e. exact I. }
  split; [exact (conj Hin (conj Htot Hq)) | ].
  apply (well_behaved_request_returns (handler doubleWriteHeader (late 503))
           (recorder false) "/foo"%string (start tt) Hin Htot Hq).
Defined.

Lemma commit_decision_sees_dispatch_state_witness :
  let x := run true writesHello scripted [0; 503] in
  hd_error (decisions true (trace x)) = Some 503 /\
  503 = fst (scripted "/foo"%string true
               (snd (scripted "/foo"%string false [0; 503]))).
Proof.
  cbn zeta. split; [reflexivity | ].
  apply (commit_decision_sees_dispatch_state (handler writesHello scripted)
           (recorder true) "/foo"%string (start [0; 503]) 503).
  reflexivity.
Defined.

(** ** The protocol of handlers that recover

    The protocol of a dispatch in general, [Performed], and what it says of
    the policy and of the sink. *)

Section Recovering.
Context {Request PolicyState SinkState : Type}.
Local Abbreviation RW := (responseWriter Request PolicyState SinkState).
Local Abbreviation W := (World PolicyState SinkState).

(** A handler that does not recover runs as before. *)
Lemma serve_plain (p : Prog) :
  forall s : RW * W, Recover.serve (plain p) s = serve p s.
Proof.
  induction p as [ | v | c k IH | d k IH ]; intros [g w]; try reflexivity.
  - cbn [plain Recover.serve serve]. unfold bind, emit, attempt.
    destruct (WriteHeader c (g, w)) as [[[u | v] s1] e1].
    + rewrite IH. reflexivity.
    + cbn. now rewrite app_nil_r.
  - cbn [plain Recover.serve serve]. unfold bind, emit, attempt.
    destruct (Write d (g, w)) as [[[a | v] s1] e1].
    + rewrite IH. reflexivity.
    + cbn. now rewrite app_nil_r.
Qed.

Lemma ServeHTTP_plain (h : Handler Request PolicyState)
    (w : http_ResponseWriter SinkState) (rq : Request) (w0 : W) :
  Recover.ServeHTTP
    {| Recover.Handler_Handler := fun r => plain (Handler_Handler h r);
       Recover.Handler_ShouldFail := Handler_ShouldFail h |} w rq w0 =
  ServeHTTP h w rq w0.
Proof.
  unfold Recover.ServeHTTP, ServeHTTP, bind, withGuard, emit.
  cbn [Recover.Handler_Handler Recover.Handler_ShouldFail].
  destruct (callShouldFail _ _ _ _) as [[[s | v] w1] e1]; [ | reflexivity].
  destruct (negb (s =? 0)); [reflexivity | ].
  now rewrite serve_plain.
Qed.

(** Every run of a downstream handler, recovering or not, follows
    [Performed]. *)
Lemma serve_Performed (p : Routine) :
  forall (g : RW) (w : W),
    Performed (ResponseWriter g) (status g) (sink w)
      (trace (Recover.serve p (g, w)))
      (sink (snd (final (Recover.serve p (g, w))))).
Proof.
  induction p as [ | v | c k IH | d k IH ]; intros g w.
  - apply pf_end.
  - apply pf_end.
  - cbn [Recover.serve]. unfold bind, emit, attempt.
    destruct (WriteHeader_step c g w) as
      [Hc | x p Hst Hx Hv | x p v' k' Hst Hx Hv Hs | x p u' k' Hst Hx Hv Hs].
    + specialize (IH (Returns tt) g w).
      destruct (Recover.serve (k _) (g, w)) as [[r2 s2] e2]. cbn in IH |- *.
      now apply pf_wh_skip.
    + specialize (IH (Panics (unexpected x)) g
                     {| policy := p; sink := sink w |}).
      destruct (Recover.serve (k _) _) as [[r2 s2] e2].
      try rewrite Hst in IH. rewrite Hst. cbn in IH |- *.
      now apply pf_wh_invalid.
    + specialize (IH (Panics v') g {| policy := p; sink := k' |}).
      destruct (Recover.serve (k _) _) as [[r2 s2] e2].
      try rewrite Hst in IH. rewrite Hst. cbn in IH |- *.
      now apply (pf_wh_refused _ _ _ _ v' k').
    + specialize (IH (Returns tt) (withStatus g (resolve x c))
                     {| policy := p; sink := k' |}).
      destruct (Recover.serve (k _) _) as [[r2 s2] e2].
      try rewrite Hst in IH. rewrite Hst. cbn in IH |- *.
      now apply (pf_wh_commit _ _ _ _ u' k').
  - cbn [Recover.serve]. unfold bind, emit, attempt.
    destruct (Write_step d g w) as
      [res k0 Hst Hw | v s' t Hst Hwh | u g' w' t res k0 Hst Hwh Hw].
    + specialize (IH res g {| policy := policy w; sink := k0 |}).
      destruct (Recover.serve (k _) _) as [[r2 s2] e2]. cbn in IH |- *.
      now apply (pf_w _ _ _ _ res k0).
    + destruct (WriteHeader_step StatusOK g w) as
        [Hc | x p _ Hx Hv | x p v' k' _ Hx Hv Hs | x p u' k' _ Hx Hv Hs];
        try contradiction; try discriminate;
        injection Hwh as <- <- <-.
      * specialize (IH (Panics (unexpected x)) g
                       {| policy := p; sink := sink w |}).
        destruct (Recover.serve (k _) _) as [[r2 s2] e2].
        try rewrite Hst in IH. rewrite Hst. cbn in IH |- *.
        now apply pf_w_invalid.
      * specialize (IH (Panics v') g {| policy := p; sink := k' |}).
        destruct (Recover.serve (k _) _) as [[r2 s2] e2].
        try rewrite Hst in IH. rewrite Hst. cbn in IH |- *.
        now apply (pf_w_refused _ _ _ _ v' k').
    + destruct (WriteHeader_step StatusOK g w) as
        [Hc | x p _ Hx Hv | x p v' k' _ Hx Hv Hs | x p u' k' _ Hx Hv Hs];
        try contradiction; try discriminate.
      inversion Hwh; subst; clear Hwh. cbn in Hw.
      specialize (IH res (withStatus g (resolve x StatusOK))
                     {| policy := p; sink := k0 |}).
      destruct (Recover.serve (k _) _) as [[r2 s2] e2].
      try rewrite Hst in IH. rewrite Hst. cbn in IH |- *.
      now apply (pf_w_commit _ _ _ _ u' k' res k0).
Qed.

(** The first answer at the commit is the policy's, in the state the
    dispatch starts with. *)
Lemma serve_first_answer (p : Routine) (g : RW) (w : W) (s : Z) :
  status g = 0 ->
  hd_error (decisions true (trace (Recover.serve p (g, w)))) = Some s ->
  s = fst (shouldFail g (req g) true (policy w)).
Proof.
  intros Hst Hhd.
  destruct p as [ | v | c k | d k ]; try discriminate.
  - cbn [Recover.serve] in Hhd. unfold bind, emit, attempt in Hhd.
    destruct (WriteHeader_step c g w) as
      [Hc | x p _ Hx Hv | x p v' k' _ Hx Hv Hs | x p u' k' _ Hx Hv Hs];
      try contradiction; rewrite Hx; cbn [fst];
      destruct (Recover.serve (k _) _) as [[r s2] e2];
      cbn in Hhd; now injection Hhd.
  - cbn [Recover.serve] in Hhd. unfold bind, emit, attempt in Hhd.
    destruct (Write_step d g w) as
      [res k0 Hc Hw | v s' t _ Hh | u g' w' t res k0 _ Hh Hw];
      try contradiction;
      destruct (WriteHeader_step StatusOK g w) as
        [Hc | x p _ Hx Hv | x p v' k' _ Hx Hv Hs | x p u' k' _ Hx Hv Hs];
      try contradiction; try discriminate; rewrite Hx; cbn [fst];
      inversion Hh; subst; clear Hh;
      destruct (Recover.serve (k _) _) as [[r s2] e2];
      cbn in Hhd; now injection Hhd.
Qed.


End Recovering.

Section RecoveringRequests.
Context {Request PolicyState SinkState : Type}.
Variable h : Recover.Handler Request PolicyState.
Variable w : http_ResponseWriter SinkState.
Variable rq : Request.
Variable w0 : World PolicyState SinkState.

Lemma ServeHTTP_Answered :
  Answered w (sink w0) (trace (Recover.ServeHTTP h w rq w0))
    (sink (final (Recover.ServeHTTP h w rq w0))) /\
  hd_error (decisions false (trace (Recover.ServeHTTP h w rq w0))) =
    Some (fst (Recover.Handler_ShouldFail h rq false (policy w0))).
Proof.
  unfold Recover.ServeHTTP, bind, callShouldFail.
  destruct (Recover.Handler_ShouldFail h rq false (policy w0)) as [s p].
  pose proof (valid_dec s) as Hv.
  destruct (Z.eqb_spec s 0) as [Hs | Hs]; cbn [negb andb fst] in *.
  - subst s. unfold emit, withGuard.
    pose proof (serve_Performed (Recover.Handler_Handler h rq)
                  {| ResponseWriter := w; req := rq;
                     shouldFail := Recover.Handler_ShouldFail h; status := 0 |}
                  {| policy := p; sink := sink w0 |}) as Hp.
    destruct (Recover.serve _ _) as [[res [g' w']] t]. cbn in Hp |- *.
    split; [now apply an_dispatch | reflexivity].
  - destruct ((s <? 400) || (s >=? 600)) eqn:Hrange.
    + unfold panic. cbn. split; [ | reflexivity].
      apply an_invalid. now apply Hv.
    + assert (valid s) as Hok.
      { destruct (Z.ltb_spec s 400), (Z.geb_spec s 600);
          simpl in Hrange; try discriminate. right. lia. }
      unfold sinkWriteHeader. cbn.
      pose proof (an_forced w (sink w0) s Hok Hs) as Ha.
      destruct (rwWriteHeader w s (sink w0)) as [res k]. cbn in Ha |- *.
      split; [exact Ha | reflexivity].
Qed.

(** The first answer at the commit is the policy's answer for the same
    request in the state its call before dispatch left. *)
Lemma ServeHTTP_first_answer (s : Z) :
  hd_error (decisions true (trace (Recover.ServeHTTP h w rq w0))) = Some s ->
  s = fst (Recover.Handler_ShouldFail h rq true
             (snd (Recover.Handler_ShouldFail h rq false (policy w0)))).
Proof.
  unfold Recover.ServeHTTP, bind, callShouldFail.
  destruct (Recover.Handler_ShouldFail h rq false (policy w0)) as [x p1].
  destruct (Z.eqb_spec x 0) as [Hx | Hx]; cbn [negb andb fst snd] in *.
  - unfold emit, withGuard.
    pose proof (serve_first_answer (Recover.Handler_Handler h rq)
                  {| ResponseWriter := w; req := rq;
                     shouldFail := Recover.Handler_ShouldFail h; status := 0 |}
                  {| policy := p1; sink := sink w0 |} s eq_refl) as Hf.
    destruct (Recover.serve _ _) as [[res [g' w']] t]. cbn in Hf |- *.
    exact Hf.
  - destruct ((x <? 400) || (x >=? 600)).
    + intros Hhd. discriminate Hhd.
    + unfold sinkWriteHeader. cbn.
      destruct (rwWriteHeader w x (sink w0)) as [res k]. cbn.
      intros Hhd. discriminate Hhd.
Qed.


End RecoveringRequests.

Section SinkFacts.
Context {SinkState : Type}.
Variable rw : http_ResponseWriter SinkState.

Lemma Performed_replay (st : Z) (k : SinkState) (t : list Event)
    (k' : SinkState) :
  Performed rw st k t k' -> replay rw t k = k'.
Proof.
  induction 1; cbn; try assumption; try reflexivity.
  all: repeat (match goal with
               | H : rwWriteHeader rw _ _ = _ |- _ => rewrite H; clear H
               | H : rwWrite rw _ _ = _ |- _ => rewrite H; clear H
               end; cbn); assumption.
Qed.

Lemma Answered_replay (k : SinkState) (t : list Event) (k' : SinkState) :
  Answered rw k t k' -> replay rw t k = k'.
Proof.
  destruct 1; try reflexivity. cbn. now apply (Performed_replay 0).
Qed.

Lemma Performed_committed (st : Z) (k : SinkState) (t : list Event)
    (k' : SinkState) :
  Performed rw st k t k' -> st <> 0 ->
  decisions true t = [] /\ sinkStatuses t = [] /\
  sinkWrites t = guardWrites t /\
  k' = replay rw (map SinkWrite (guardWrites t)) k.
Proof.
  induction 1; intros Hst; try congruence;
    unfold decisions, sinkStatuses, sinkWrites, guardWrites in *; cbn.
  - repeat split.
  - tauto.
  - destruct IHPerformed as (? & ? & Hw & Hk); [assumption | ].
    rewrite H0. cbn. repeat split; try assumption. now f_equal.
Qed.

Lemma Performed_inside (st : Z) (k : SinkState) (t : list Event)
    (k' : SinkState) :
  Performed rw st k t k' ->
  decisions false t = [] /\ invocations t = 0%nat /\
  forcedDirectly t = false /\
  (List.length (sinkStatuses t) <= List.length (decisions true t))%nat.
Proof.
  induction 1; unfold decisions, invocations, sinkStatuses in *; cbn;
    try (repeat split; try tauto; lia).
  - (* an invalid answer to WriteHeader *)
    destruct IHPerformed as (Hd & Hi & Hf & Hl).
    repeat split; try assumption; [ | lia].
    inversion H0; subst; try reflexivity; cbn in Hf |- *; assumption.
  - destruct IHPerformed as (Hd & Hi & Hf & Hl).
    repeat split; try assumption; [ | lia].
    inversion H0; subst; try reflexivity; cbn in Hf |- *; assumption.
Qed.

Lemma Performed_body (st : Z) (k : SinkState) (t : list Event)
    (k' : SinkState) :
  Performed rw st k t k' ->
  (forall s, In s (decisions true t) -> valid s) ->
  accepted rw t k = true ->
  sinkWrites t = guardWrites t.
Proof.
  induction 1; intros Hall Hacc;
    unfold sinkWrites, guardWrites in *; cbn in Hacc |- *.
  - reflexivity.
  - now apply IHPerformed.
  - exfalso. apply H, Hall. cbn. now left.
  - rewrite H0 in Hacc. discriminate.
  - rewrite H0 in Hacc. apply IHPerformed; [ | assumption].
    intros x Hx. apply Hall. cbn. now right.
  - rewrite H0 in Hacc. f_equal. now apply IHPerformed.
  - exfalso. apply H, Hall. cbn. now left.
  - rewrite H0 in Hacc. discriminate.
  - rewrite H0, H1 in Hacc. f_equal. apply IHPerformed; [ | assumption].
    intros x Hx. apply Hall. cbn. now right.
Qed.

Lemma Performed_subseq (st : Z) (k : SinkState) (t : list Event)
    (k' : SinkState) :
  Performed rw st k t k' -> Subseq (sinkWrites t) (guardWrites t).
Proof.
  induction 1; unfold sinkWrites, guardWrites in *; cbn;
    try assumption; try constructor; assumption.
Qed.


Lemma Performed_forced (k : SinkState) (t : list Event) (k' : SinkState)
    (s : Z) :
  Performed rw 0 k t k' ->
  hd_error (decisions true t) = Some s -> 400 <= s < 600 ->
  fst (rwWriteHeader rw s k) = Returns tt ->
  decisions true t = [s] /\ sinkStatuses t = [s] /\
  taken rw t k = Some s /\ sinkWrites t = guardWrites t /\
  k' = replay rw (SinkWriteHeader s :: map SinkWrite (guardWrites t)) k.
Proof.
  intros Hp Hhd Hrange Hret.
  assert (s <> 0) as Hs by lia.
  remember 0 as st eqn:Hst.
  destruct Hp; try congruence; cbn in Hhd; try discriminate;
    injection Hhd as ->;
    try (exfalso; apply H; right; exact Hrange);
    rewrite ?(resolve_forced s c Hs), ?(resolve_forced s StatusOK Hs) in *;
    rewrite H0 in Hret; try discriminate.
  - destruct (Performed_committed _ _ _ _ Hp Hs) as (Hd & Hc & Hw & Hk).
    unfold decisions, sinkStatuses, sinkWrites, guardWrites in *. cbn.
    rewrite H0, Hd, Hc. cbn. repeat split; assumption.
  - destruct (Performed_committed _ _ _ _ Hp Hs) as (Hd & Hc & Hw & Hk).
    unfold decisions, sinkStatuses, sinkWrites, guardWrites in *. cbn.
    rewrite H0. cbn. rewrite H1, Hd, Hc, Hw. cbn. repeat split. exact Hk.
Qed.

(** With the policy silent, a first call that commits a status other than 0
    leaves the sink as that one [WriteHeader] and the written slices do. *)
Lemma Performed_through (k : SinkState) (t : list Event) (k' : SinkState)
    (c : Z) :
  Performed rw 0 k t k' ->
  (forall s, In s (decisions true t) -> s = 0) ->
  accepted rw t k = true ->
  firstCall t = Some c -> c <> 0 ->
  sinkStatuses t = [c] /\
  k' = replay rw (SinkWriteHeader c :: map SinkWrite (guardWrites t)) k.
Proof.
  intros Hp Hall Hacc Hfirst Hc.
  remember 0 as st eqn:Hst.
  destruct Hp; try congruence; try discriminate.
  all: assert (s = 0) as -> by (apply Hall; cbn; now left).
  all: try (exfalso; apply H; now left).
  all: cbn in H0, Hacc, Hfirst; injection Hfirst as <-;
    rewrite H0 in Hacc; try discriminate.
  - destruct (Performed_committed _ _ _ _ Hp Hc) as (Hd & Hs & Hw & Hk).
    unfold sinkStatuses, guardWrites in *. cbn.
    rewrite H0, Hs. cbn. split; [reflexivity | exact Hk].
  - cbn in Hp.
    destruct (Performed_committed _ _ _ _ Hp Hc) as (Hd & Hs & Hw & Hk).
    unfold sinkStatuses, guardWrites in *. cbn.
    rewrite H0. cbn. rewrite H1, Hs. cbn. split; [reflexivity | exact Hk].
Qed.

Lemma Performed_pass (k : SinkState) (t : list Event) (k' : SinkState) :
  Performed rw 0 k t k' ->
  (forall s, In s (decisions true t) -> s = 0) ->
  accepted rw t k = true ->
  taken rw t k = firstCall t.
Proof.
  intros Hp Hall Hacc.
  remember 0 as st eqn:Hst.
  destruct Hp; try congruence; try reflexivity.
  all: assert (s = 0) as -> by (apply Hall; cbn; now left).
  all: try (exfalso; apply H; now left).
  all: cbn in H0, Hacc |- *; rewrite H0 in Hacc |- *; try discriminate.
  all: reflexivity.
Qed.


End SinkFacts.

(** ** One request of a handler that may recover *)

Section RecoveringClaims.
Context {Request PolicyState SinkState : Type}.
Variable h : Recover.Handler Request PolicyState.
Variable w : http_ResponseWriter SinkState.
Variable rq : Request.
Variable w0 : World PolicyState SinkState.

Local Abbreviation run := (Recover.ServeHTTP h w rq w0).

(** The sink ends in the state its own methods reach on the calls of the
    trace. *)
Lemma sink_follows_trace :
  sink (final run) = replay w (trace run) (sink w0).
Proof.
  symmetry. apply Answered_replay, (ServeHTTP_Answered h w rq w0).
Qed.

(** C2 (amended). When the answer before dispatch is 0, the first answer at
    the commit is a status [s] in 400..599 and the sink's [WriteHeader s]
    returns: [s] is the policy's own answer with [afterHeader = true], the
    downstream handler is entered once, [s] is the one status the sink
    receives and the one it takes, whatever codes the handler passes, the
    policy is not asked again, every slice the handler writes reaches the
    sink, and the sink is left as its own [WriteHeader s] followed by its
    own [Write] of each written slice leaves it, whether the handler
    returns, panics or recovers. *)
Theorem late_failure_overrides_status (s : Z) :
  decisions false (trace run) = [0] ->
  hd_error (decisions true (trace run)) = Some s -> 400 <= s < 600 ->
  fst (rwWriteHeader w s (sink w0)) = Returns tt ->
  s = fst (Recover.Handler_ShouldFail h rq true
             (snd (Recover.Handler_ShouldFail h rq false (policy w0)))) /\
  invocations (trace run) = 1%nat /\
  decisions true (trace run) = [s] /\
  sinkStatuses (trace run) = [s] /\
  taken w (trace run) (sink w0) = Some s /\
  sinkWrites (trace run) = guardWrites (trace run) /\
  sink (final run) =
    replay w (SinkWriteHeader s :: map SinkWrite (guardWrites (trace run)))
      (sink w0).
Proof.
  intros Hfirst Hhd Hrange Hret.
  split; [exact (ServeHTTP_first_answer h w rq w0 s Hhd) | ].
  destruct (ServeHTTP_Answered h w rq w0) as [Ha _].
  destruct Ha as [k x Hbad | k x Hok Hx | k t k' Hp]; cbn in Hfirst.
  - injection Hfirst as ->. exfalso. apply Hbad. now left.
  - injection Hfirst as ->. contradiction.
  - destruct (Performed_forced w k t k' s Hp Hhd Hrange Hret)
      as (Hd & Hc & Ht & Hw & Hk).
    destruct (Performed_inside w _ _ _ _ Hp) as (_ & Hi & _).
    unfold invocations in *. cbn. rewrite Hi.
    repeat split; assumption.
Qed.

(** C3 (amended). When the policy answers 0 throughout and no [WriteHeader]
    on the sink panics, the handler is entered once, the status the sink
    takes is the one of the handler's first call on the decorator (its code
    for [WriteHeader], 200 for [Write]), every slice the handler writes
    reaches the sink, in order, and the sink is left as its own methods
    leave it on these calls: for a first status other than 0, one
    [WriteHeader] of it followed by the [Write] of each written slice.  The
    handler may return, panic after its calls, or recover. *)
Theorem no_fault_status_and_body :
  decisions false (trace run) = [0] ->
  (forall s, In s (decisions true (trace run)) -> s = 0) ->
  accepted w (trace run) (sink w0) = true ->
  invocations (trace run) = 1%nat /\
  taken w (trace run) (sink w0) = firstCall (trace run) /\
  sinkWrites (trace run) = guardWrites (trace run) /\
  sink (final run) = replay w (trace run) (sink w0) /\
  (forall c, firstCall (trace run) = Some c -> c <> 0 ->
     sinkStatuses (trace run) = [c] /\
     sink (final run) =
       replay w (SinkWriteHeader c :: map SinkWrite (guardWrites (trace run)))
         (sink w0)).
Proof.
  intros Hfirst Hall Hacc.
  pose proof sink_follows_trace as Hsink.
  destruct (ServeHTTP_Answered h w rq w0) as [Ha _].
  destruct Ha as [k x Hbad | k x Hok Hx | k t k' Hp]; cbn in Hfirst.
  - injection Hfirst as ->. exfalso. apply Hbad. now left.
  - injection Hfirst as ->. contradiction.
  - destruct (Performed_inside w _ _ _ _ Hp) as (_ & Hi & _).
    split; [unfold invocations in *; cbn; now rewrite Hi | ].
    split; [apply (Performed_pass w k t k' Hp); assumption | ].
    split; [ | split; [exact Hsink | ]].
    + apply (Performed_body w 0 k t k' Hp); [ | assumption].
      intros s Hs. left. now apply Hall.
    + intros c. apply (Performed_through w k t k' c Hp); assumption.
Qed.


(** C7 (amended). When the answer before dispatch is 0 or a status in
    400..599,
    exactly one of the two happens.  Either the answer is not 0:
    [ServeHTTP] itself writes it on the sink, that is the whole request, and
    the downstream handler is not entered.  Or the answer is 0: the handler
    is entered once, and every [WriteHeader] that reaches the sink comes
    through the decorator, right after a decision at the commit. *)
Theorem forced_or_dispatched :
  valid (fst (Recover.Handler_ShouldFail h rq false (policy w0))) ->
  (fst (Recover.Handler_ShouldFail h rq false (policy w0)) <> 0 /\
   forcedDirectly (trace run) = true /\ invocations (trace run) = 0%nat /\
   trace run =
     [ShouldFailCall false
        (fst (Recover.Handler_ShouldFail h rq false (policy w0)));
      SinkWriteHeader
        (fst (Recover.Handler_ShouldFail h rq false (policy w0)))] /\
   sink (final run) =
     snd (rwWriteHeader w
            (fst (Recover.Handler_ShouldFail h rq false (policy w0)))
            (sink w0))) \/
  (fst (Recover.Handler_ShouldFail h rq false (policy w0)) = 0 /\
   forcedDirectly (trace run) = false /\ invocations (trace run) = 1%nat).
Proof.
  destruct (ServeHTTP_Answered h w rq w0) as [Ha Hhd].
  revert Hhd.
  generalize (fst (Recover.Handler_ShouldFail h rq false (policy w0))).
  intros s Hhd Hv.
  destruct Ha as [k x Hbad | k x Hok Hx | k t k' Hp];
    cbn in Hhd; injection Hhd as <-.
  - contradiction.
  - left. repeat split. exact Hx.
  - right. destruct (Performed_inside w _ _ _ _ Hp) as (_ & Hi & Hf & _).
    unfold invocations in *. cbn. rewrite Hi.
    split; [reflexivity | split; [ | reflexivity]].
    destruct t as [ | e t]; [reflexivity | ]. destruct e; exact Hf.
Qed.

(** X12. The slices that reach the sink are slices the handler wrote, in
    the order written and unchanged; none is missing when every answer of
    the policy at the commit is 0 or in 400..599 and no [WriteHeader] on the
    sink panics. *)
Theorem sink_slices_are_written_slices :
  Subseq (sinkWrites (trace run)) (guardWrites (trace run)) /\
  ((forall s, In s (decisions true (trace run)) -> valid s) ->
   accepted w (trace run) (sink w0) = true ->
   sinkWrites (trace run) = guardWrites (trace run)).
Proof.
  destruct (ServeHTTP_Answered h w rq w0) as [Ha _].
  destruct Ha as [k x Hbad | k x Hok Hx | k t k' Hp];
    try (split; [constructor | reflexivity]).
  split.
  - apply (Performed_subseq w 0 k t k' Hp).
  - apply (Performed_body w 0 k t k' Hp).
Qed.

End RecoveringClaims.

(** ** Handlers that recover, at work *)

(** A handler that does not recover runs the same in both models:
    [TestServeHTTP_early] again. *)
Example scenario_late_500_plainly :
  let x := attend (recorder true) (plainly writesHello) (late 500) tt in
  x = run true writesHello (late 500) tt /\
  Code (sink (final x)) = 500 /\ Body (sink (final x)) = hello.
Proof. repeat split. Qed.

(** The sink refuses 99, the handler recovers and commits 500: the policy is
    asked twice at the commit and the sink's [WriteHeader] is called
    twice. *)
Example scenario_recovered_refusal :
  let x := attend (recorder true) retriesStatus (always 0) tt in
  outcome x = Returns tt /\ decisions true (trace x) = [0; 0] /\
  sinkStatuses (trace x) = [99; 500] /\ Code (sink (final x)) = 500.
Proof. repeat split. Qed.

(** The policy answers 200 at the commit, the handler recovers both panics:
    the request returns and no slice has reached the sink. *)
Example scenario_recovered_writes :
  let x := attend (recorder true) retriesWrite (late 200) tt in
  outcome x = Returns tt /\ guardWrites (trace x) = [hello; hello] /\
  sinkWrites (trace x) = [] /\ Body (sink (final x)) = [].
Proof. repeat split. Qed.

(** The handler panics after its write: the body is delivered all the
    same. *)
Example scenario_writes_then_faults :
  let x := attend (recorder true) writesThenFaults (always 0) tt in
  outcome x = Panics "boom" /\ Code (sink (final x)) = 200 /\
  Body (sink (final x)) = hello.
Proof. repeat split. Qed.

Lemma late_failure_overrides_status_witness :
  let x := attend (recorder true) (plainly doubleWriteHeader) (late 500) tt in
  (decisions false (trace x) = [0] /\
   hd_error (decisions true (trace x)) = Some 500 /\ 400 <= 500 < 600 /\
   fst (rwWriteHeader (recorder true) 500 (sink (start tt))) = Returns tt) /\
  500 = fst (late 500 "/foo"%string true
               (snd (late 500 "/foo"%string false (policy (start tt))))) /\
  invocations (trace x) = 1%nat /\
  decisions true (trace x) = [500] /\
  sinkStatuses (trace x) = [500] /\
  taken (recorder true) (trace x) (sink (start tt)) = Some 500 /\
  sinkWrites (trace x) = guardWrites (trace x) /\
  sink (final x) =
    replay (recorder true)
      (SinkWriteHeader 500 :: map SinkWrite (guardWrites (trace x)))
      (sink (start tt)).
Proof.
  cbn zeta.
  split; [split; [reflexivity | split; [reflexivity | split;
                                        [lia | reflexivity]]] | ].
  apply (late_failure_overrides_status
           (recovering (plainly doubleWriteHeader) (late 500))
           (recorder true) "/foo"%string (start tt) 500);
    [reflexivity | reflexivity | lia | reflexivity].
Defined.

(** C2. As stated the claim fails on a sink whose [WriteHeader] panics: the
    policy answers 0 and then 500, the handler is entered and writes
    "hello", but the implicit commit panics before line 55, so the slice
    never reaches the sink and the sink has taken no status. *)
Lemma late_failure_counterexample :
  let x := attend refusing (plainly writesHello) (late 500) tt in
  decisions false (trace x) = [0] /\ decisions true (trace x) = [500] /\
  invocations (trace x) = 1%nat /\
  guardWrites (trace x) = [hello] /\ sinkWrites (trace x) = [] /\
  taken refusing (trace x) (sink (start tt)) = None /\
  sink (final x) = NewRecorder.
Proof. repeat split. Qed.

Lemma no_fault_status_and_body_witness :
  let x := attend (recorder true) writesThenFaults (always 0) tt in
  (decisions false (trace x) = [0] /\
   (forall s, In s (decisions true (trace x)) -> s = 0) /\
   accepted (recorder true) (trace x) (sink (start tt)) = true) /\
  invocations (trace x) = 1%nat /\
  taken (recorder true) (trace x) (sink (start tt)) = firstCall (trace x) /\
  sinkWrites (trace x) = guardWrites (trace x) /\
  sink (final x) = replay (recorder true) (trace x) (sink (start tt)) /\
  (forall c, firstCall (trace x) = Some c -> c <> 0 ->
     sinkStatuses (trace x) = [c] /\
     sink (final x) =
       replay (recorder true)
         (SinkWriteHeader c :: map SinkWrite (guardWrites (trace x)))
         (sink (start tt))).
Proof.
  cbn zeta.
  assert (forall s,
            In s (decisions true
                    (trace (attend (recorder true) writesThenFaults
                              (always 0) tt))) -> s = 0) as Hall
    by (intros s Hs; vm_compute in Hs; destruct Hs as [<- | []]; reflexivity).
  split; [split; [reflexivity | split; [exact Hall | reflexivity]] | ].
  apply (no_fault_status_and_body
           (recovering writesThenFaults (always 0))
           (recorder true) "/foo"%string (start tt));
    [reflexivity | exact Hall | reflexivity].
Defined.

(** C3. As stated the claim fails twice.  A handler that writes "hello" and
    then calls [WriteHeader(201)] has set 201 as its first status, yet the
    sink has taken 200 (lines 52 to 54).  And on a sink whose [WriteHeader]
    panics the written slice is not delivered and no status is taken; if
    the handler recovers, the status taken is the one of a later call. *)
Lemma no_fault_counterexample :
  (let x := attend (recorder true) (plainly writesThenSetsStatus)
              (always 0) tt in
   decisions false (trace x) = [0] /\ decisions true (trace x) = [0] /\
   statedStatus (trace x) = 201 /\
   taken (recorder true) (trace x) (sink (start tt)) = Some 200 /\
   Code (sink (final x)) = 200) /\
  (let y := attend refusing (plainly writesHello) (always 0) tt in
   decisions false (trace y) = [0] /\ decisions true (trace y) = [0] /\
   guardWrites (trace y) = [hello] /\ Body (sink (final y)) = [] /\
   taken refusing (trace y) (sink (start tt)) = None) /\
  (let z := attend (recorder true) retriesStatus (always 0) tt in
   decisions false (trace z) = [0] /\ decisions true (trace z) = [0; 0] /\
   firstCall (trace z) = Some 99 /\
   taken (recorder true) (trace z) (sink (start tt)) = Some 500).
Proof. repeat split. Qed.



Lemma forced_or_dispatched_witness :
  let x := attend (recorder true) (plainly writesHello) (early 500) tt in
  valid 500 /\
  ((500 <> 0 /\
    forcedDirectly (trace x) = true /\ invocations (trace x) = 0%nat /\
    trace x = [ShouldFailCall false 500; SinkWriteHeader 500] /\
    sink (final x) = snd (rwWriteHeader (recorder true) 500 (sink (start tt))))
   \/
   (500 = 0 /\
    forcedDirectly (trace x) = false /\ invocations (trace x) = 1%nat)).
Proof.
  cbn zeta.
  assert (valid 500) as Hv by (right; lia).
  split; [exact Hv | ].
  apply (forced_or_dispatched
           (recovering (plainly writesHello) (early 500))
           (recorder true) "/foo"%string (start tt)).
  exact Hv.
Defined.

(** C7. As stated the claim fails when the answer before dispatch is
    neither 0 nor in 400..599: [ServeHTTP] panics at line 36, nothing is
    written on the sink and the handler is not entered
    ([TestServeHTTP_panic_early]). *)
Lemma forced_or_dispatched_counterexample :
  let x := attend (recorder true) (plainly writesHello) (early 200) tt in
  outcome x = Panics (unexpected 200) /\
  forcedDirectly (trace x) = false /\ sinkStatuses (trace x) = [] /\
  invocations (trace x) = 0%nat /\ sink (final x) = NewRecorder.
Proof. repeat split. Qed.

Lemma sink_slices_are_written_slices_witness :
  let x := attend (recorder true) writesThenFaults (late 503) tt in
  Subseq (sinkWrites (trace x)) (guardWrites (trace x)) /\
  sinkWrites (trace x) = [hello].
Proof.
  cbn zeta.
  destruct (sink_slices_are_written_slices
              (recovering writesThenFaults (late 503))
              (recorder true) "/foo"%string (start tt)) as [Hsub Heq].
  split; [exact Hsub | ].
  apply Heq; [ | reflexivity].
  intros s Hs. vm_compute in Hs. destruct Hs as [<- | []]. right. lia.
Defined.
